(** * API_Notion: pagination, property flattening and the QR batch grouper

    A shallow embedding of [main.py] (the HTTP facade) and [qr_generator.py]
    (the batch QR generator).

    Modelling decisions, all taken from the source:
    - a record fetched from the remote store is a Python value built from
      [dict], [list], [str], [int], [bool] and [None]; it is modelled by the
      type [json], and every subscript, [.get], [in] and truth test the code
      performs on it is modelled with the exception Python raises;
    - a Python [str] is a Rocq [string] whose characters are the code points
      U+0000..U+00FF (Latin-1); [str.isalnum], [str.isspace] and [int] are
      the interpreter's, restricted to that range;
    - the response envelope of the remote query ([results], [has_more],
      [next_cursor]) is the record [Page];
    - exceptions are values of [exn], and code that can raise lives in the
      error monad [result];
    - loops whose length the code does not bound take a [fuel] argument and
      return [None] when it runs out;
    - the QR encoder and the file system are collaborators: the renderer is
      modelled up to the URL it encodes and the file name it saves under;
      the interpreter's limit on the number of digits [int] accepts is not
      modelled. *)

From Stdlib Require Import String Ascii List ZArith NArith Bool Arith Lia Permutation.
Import ListNotations.
#[local] Set Warnings "-register-all".
Local Open Scope string_scope.
Local Open Scope list_scope.

(** ** Exceptions and the error monad *)

Inductive exn : Type :=
| KeyError
| IndexError
| TypeError
| ValueError
| AttributeError
| RemoteError (msg : string)
| HTTPException (status : nat) (cause : exn).

Inductive result (A : Type) : Type :=
| Ok (a : A)
| Raise (e : exn).
Arguments Ok {A} a.
Arguments Raise {A} e.

Definition bind {A B : Type} (r : result A) (k : A -> result B) : result B :=
  match r with
  | Ok a => k a
  | Raise e => Raise e
  end.

Notation "x <- r ;; k" := (bind r (fun x => k))
  (at level 61, r at next level, right associativity).

Fixpoint mapM {A B : Type} (f : A -> result B) (l : list A) : result (list B) :=
  match l with
  | [] => Ok []
  | a :: l' => b <- f a ;; bs <- mapM f l' ;; Ok (b :: bs)
  end.

(** ** Python values *)

Inductive json : Type :=
| JNull
| JBool (b : bool)
| JNum (z : Z)
| JStr (s : string)
| JList (l : list json)
| JDict (d : list (string * json)).

(** [bool(v)] *)
Definition truthy (v : json) : bool :=
  match v with
  | JNull => false
  | JBool b => b
  | JNum z => negb (z =? 0)%Z
  | JStr s => negb (s =? "")
  | JList l => match l with [] => false | _ => true end
  | JDict d => match d with [] => false | _ => true end
  end.

(** Lookup of a [str] key in a [dict]. *)
Fixpoint lookup (k : string) (d : list (string * json)) : option json :=
  match d with
  | [] => None
  | (k', v) :: d' => if k =? k' then Some v else lookup k d'
  end.

(** [d[k] = v] on a [dict]: the value of an existing key is replaced in
    place, a new key is added at the end. *)
Fixpoint dict_set (d : list (string * json)) (k : string) (v : json)
  : list (string * json) :=
  match d with
  | [] => [(k, v)]
  | (k', v') :: d' =>
      if k =? k' then (k', v) :: d' else (k', v') :: dict_set d' k v
  end.

(** [o[k]] with a [str] key. *)
Definition getitem (o : json) (k : string) : result json :=
  match o with
  | JDict d => match lookup k d with Some v => Ok v | None => Raise KeyError end
  | _ => Raise TypeError
  end.

Definition string_of_char (c : ascii) : string := String c EmptyString.

(** [o[i]] with an [int] index [i >= 0]. *)
Definition getindex (o : json) (i : nat) : result json :=
  match o with
  | JList l => match nth_error l i with Some v => Ok v | None => Raise IndexError end
  | JStr s => match String.get i s with
              | Some c => Ok (JStr (string_of_char c))
              | None => Raise IndexError
              end
  | JDict _ => Raise KeyError
  | _ => Raise TypeError
  end.

(** [d[k]] on a [dict] [d], where the key is itself a value: only a [str]
    can be a key of a decoded object, [None], a [bool] or a number is a key
    that is absent, and a [list] or [dict] is unhashable. *)
Definition getitem_val (d : list (string * json)) (k : json) : result json :=
  match k with
  | JStr s => getitem (JDict d) s
  | JList _ | JDict _ => Raise TypeError
  | _ => Raise KeyError
  end.

(** [o.get(k, default)] *)
Definition dict_get (o : json) (k : string) (default : json) : result json :=
  match o with
  | JDict d => Ok (match lookup k d with Some v => v | None => default end)
  | _ => Raise AttributeError
  end.

(** [for x in o]: the elements of a [list], the keys of a [dict], the
    characters of a [str]. *)
Fixpoint chars (s : string) : list json :=
  match s with
  | EmptyString => []
  | String c s' => JStr (string_of_char c) :: chars s'
  end.

Definition iterate (o : json) : result (list json) :=
  match o with
  | JList l => Ok l
  | JDict d => Ok (map (fun kv => JStr (fst kv)) d)
  | JStr s => Ok (chars s)
  | _ => Raise TypeError
  end.

Definition as_str (v : json) : result string :=
  match v with
  | JStr s => Ok s
  | _ => Raise TypeError
  end.

(** ** main.py: the property flattener (lines 183-193) *)

(** ["".join(text["plain_text"] for text in frags)]: [join] first exhausts
    the generator, then checks that every item is a [str]. *)
Definition join_plain_text (frags : json) : result json :=
  texts <- iterate frags ;;
  items <- mapM (fun text => getitem text "plain_text") texts ;;
  strs <- mapM as_str items ;;
  Ok (JStr (String.concat "" strs)).

(** [prop_data["type"] == "title"] *)
Definition is_kind (t : json) (kind : string) : bool :=
  match t with
  | JStr s => s =? kind
  | _ => false
  end.

(** The body of the loop over [page["properties"].items()]: the value
    stored under [prop_name]. *)
Definition flatten_property (prop_data : json) : result json :=
  t <- getitem prop_data "type" ;;
  if is_kind t "title" then
    frags <- getitem prop_data "title" ;; join_plain_text frags
  else if is_kind t "rich_text" then
    frags <- getitem prop_data "rich_text" ;; join_plain_text frags
  else
    match prop_data with
    | JDict d => getitem_val d t
    | _ => Raise TypeError
    end.

(** The loop itself, filling [formatted_page["properties"]]. *)
Fixpoint flatten_into (acc : list (string * json)) (props : list (string * json))
  : result (list (string * json)) :=
  match props with
  | [] => Ok acc
  | (prop_name, prop_data) :: rest =>
      v <- flatten_property prop_data ;;
      flatten_into (dict_set acc prop_name v) rest
  end.

Definition flatten_properties (props : list (string * json))
  : result (list (string * json)) :=
  flatten_into [] props.

(** [page["properties"].items()] *)
Definition dict_items (o : json) : result (list (string * json)) :=
  match o with
  | JDict d => Ok d
  | _ => Raise AttributeError
  end.

(** The construction of [formatted_page] for one page of the response. *)
Definition format_page (page : json) : result json :=
  id <- getitem page "id" ;;
  url <- getitem page "url" ;;
  created <- getitem page "created_time" ;;
  edited <- getitem page "last_edited_time" ;;
  raw <- getitem page "properties" ;;
  props <- dict_items raw ;;
  flat <- flatten_properties props ;;
  Ok (JDict [("id", id); ("url", url); ("created_time", created);
             ("last_edited_time", edited); ("properties", JDict flat)]).

(** ** The remote store *)

(** The response envelope of a paged query. *)
Record Page : Type := mkPage {
  results : list json;
  has_more : bool;
  next_cursor : option string
}.

(** The keyword arguments of [notion.databases.query]: whether the
    [Category contains Semi-consumable] filter is sent, the cursor, and the
    page size. *)
Record QueryParams : Type := mkQuery {
  q_filter : bool;
  q_start_cursor : option string;
  q_page_size : Z
}.

(** The remote store: the answer to the [n]-th query of a run (counted from
    0) with the given arguments; it answers or raises. *)
Definition Remote : Type := nat -> QueryParams -> result Page.

(** ** main.py: [test_database_access] and [test_pagination] *)

Record PaginationParams : Type := mkPagination {
  start_cursor : option string;
  page_size : Z
}.

Record FormattedResponse : Type := mkFormatted {
  f_results : list json;
  f_has_more : bool;
  f_next_cursor : option string
}.

(** [test_database_access]: one query, every page of the answer formatted;
    any exception becomes an [HTTPException] with status 500. *)
Definition test_database_access (remote : Remote) (n : nat)
  (pagination : PaginationParams) : result FormattedResponse :=
  match
    (response <- remote n (mkQuery false (start_cursor pagination)
                                   (Z.min (page_size pagination) 100)) ;;
     pages <- mapM format_page (results response) ;;
     Ok (mkFormatted pages (has_more response) (next_cursor response)))
  with
  | Ok r => Ok r
  | Raise e => Raise (HTTPException 500 e)
  end.

(** The local variables of [test_pagination]. *)
Record PaginationState : Type := mkState {
  all_pages : list json;
  more : bool;
  cursor : option string;
  page_count : nat
}.

Definition initial_state : PaginationState := mkState [] true None 0.

(** The [while has_more:] loop of [test_pagination]; [None] when [fuel]
    iterations were not enough to leave it. *)
Fixpoint pagination_loop (remote : Remote) (fuel : nat) (st : PaginationState)
  : option (result PaginationState) :=
  if more st then
    match fuel with
    | O => None
    | S fuel' =>
        match test_database_access remote (page_count st)
                (mkPagination (cursor st) 10) with
        | Raise e => Some (Raise e)
        | Ok response =>
            let st' := mkState (all_pages st ++ f_results response)
                               (f_has_more response)
                               (f_next_cursor response)
                               (S (page_count st)) in
            if (10 <=? page_count st')%nat then Some (Ok st')
            else pagination_loop remote fuel' st'
        end
    end
  else Some (Ok st).

Record PaginationReport : Type := mkReport {
  total_pages_fetched : nat;
  pagination_rounds : nat;
  pages : list json
}.

(** [test_pagination] *)
Definition test_pagination (remote : Remote) (fuel : nat)
  : option (result PaginationReport) :=
  match pagination_loop remote fuel initial_state with
  | None => None
  | Some (Ok st) =>
      Some (Ok (mkReport (length (all_pages st)) (page_count st) (all_pages st)))
  | Some (Raise e) => Some (Raise (HTTPException 500 e))
  end.

(** ** Python string builtins, on the code points U+0000..U+00FF *)

Definition code (c : ascii) : N := N_of_ascii c.

Definition between (lo hi : N) (c : ascii) : bool :=
  ((lo <=? code c) && (code c <=? hi))%N.

(** The characters the claim's class [[A-Za-z0-9]] names. *)
Definition ascii_alnum (c : ascii) : bool :=
  between 48 57 c || between 65 90 c || between 97 122 c.

(** [c.isalnum()]: letters and digits of Unicode; beyond ASCII these are
    U+00AA, U+00B2, U+00B3, U+00B5, U+00B9, U+00BA, U+00BC..U+00BE,
    U+00C0..U+00D6, U+00D8..U+00F6 and U+00F8..U+00FF. *)
Definition isalnum (c : ascii) : bool :=
  ascii_alnum c
  || (code c =? 170)%N || between 178 179 c || (code c =? 181)%N
  || between 185 186 c || between 188 190 c
  || between 192 214 c || between 216 246 c || between 248 255 c.

(** [c.isspace()] *)
Definition isspace (c : ascii) : bool :=
  between 9 13 c || between 28 32 c || (code c =? 133)%N || (code c =? 160)%N.

(** [s.isalnum()] for a whole string: not empty, every character passes. *)
Fixpoint all_alnum (s : string) : bool :=
  match s with
  | EmptyString => true
  | String c s' => isalnum c && all_alnum s'
  end.

Definition str_isalnum (s : string) : bool :=
  negb (s =? "") && all_alnum s.

Fixpoint filter_string (keep : ascii -> bool) (s : string) : string :=
  match s with
  | EmptyString => EmptyString
  | String c s' =>
      if keep c then String c (filter_string keep s') else filter_string keep s'
  end.

(** [s.rstrip()] *)
Fixpoint rstrip (s : string) : string :=
  match s with
  | EmptyString => EmptyString
  | String c s' =>
      match rstrip s' with
      | EmptyString => if isspace c then EmptyString else String c EmptyString
      | r => String c r
      end
  end.

(** [s.replace('-', '')] *)
Definition remove_hyphens (s : string) : string :=
  filter_string (fun c => negb (Ascii.eqb c "-")) s.

(** *** [int(s)] *)

(** The white space [int] strips at both ends. *)
Definition int_space (c : ascii) : bool :=
  between 9 13 c || (code c =? 32)%N || (code c =? 133)%N || (code c =? 160)%N.

Fixpoint lstrip_int (s : string) : string :=
  match s with
  | EmptyString => EmptyString
  | String c s' => if int_space c then lstrip_int s' else s
  end.

Fixpoint rstrip_int (s : string) : string :=
  match s with
  | EmptyString => EmptyString
  | String c s' =>
      match rstrip_int s' with
      | EmptyString => if int_space c then EmptyString else String c EmptyString
      | r => String c r
      end
  end.

Definition is_digit (c : ascii) : bool := between 48 57 c.

Definition digit_value (c : ascii) : Z := Z.of_N (code c) - 48.

(** Decimal digits, with single underscores allowed between two digits. *)
Fixpoint parse_digits (acc : Z) (after_digit : bool) (s : string) : option Z :=
  match s with
  | EmptyString => if after_digit then Some acc else None
  | String c s' =>
      if is_digit c then parse_digits (10 * acc + digit_value c) true s'
      else if Ascii.eqb c "_" then
        if after_digit then parse_digits acc false s' else None
      else None
  end.

Definition int_of_string (s : string) : option Z :=
  match rstrip_int (lstrip_int s) with
  | String "+" ds => parse_digits 0 false ds
  | String "-" ds => option_map Z.opp (parse_digits 0 false ds)
  | ds => parse_digits 0 false ds
  end.

(** [int(v)] *)
Definition py_int (v : json) : result Z :=
  match v with
  | JStr s => match int_of_string s with Some z => Ok z | None => Raise ValueError end
  | JNum z => Ok z
  | JBool b => Ok (if b then 1 else 0)%Z
  | _ => Raise TypeError
  end.

(** *** [datetime.now().strftime("%Y%m%d")] *)

Record DateTime : Type := mkDate { year : nat; month : nat; day : nat }.

Definition digit (n : nat) : ascii := ascii_of_nat (48 + n mod 10).

Definition two_digits (n : nat) : string :=
  String (digit (n / 10)) (String (digit n) EmptyString).

Definition four_digits (n : nat) : string :=
  String (digit (n / 1000)) (String (digit (n / 100)) (two_digits n)).

Definition strftime_Ymd (now : DateTime) : string :=
  (four_digits (year now) ++ two_digits (month now) ++ two_digits (day now))%string.

(** ** qr_generator.py: [generate_item_qr] (lines 51-91) *)

(** What the renderer hands to its collaborators: the text encoded in the
    QR code and the name of the file it is saved under. *)
Record Artifact : Type := mkArtifact {
  qr_data : string;
  filename : string
}.

(** ['Item' in properties] *)
Definition contains_item (properties : json) : result bool :=
  match properties with
  | JDict d => Ok (match lookup "Item" d with Some _ => true | None => false end)
  | JList l => Ok (existsb (fun v => is_kind v "Item") l)
  | JStr s => Ok (match index 0 "Item" s with Some _ => true | None => false end)
  | _ => Raise TypeError
  end.

(** [properties['Item']['title'][0]['text']['content']] *)
Definition title_content (properties : json) : result json :=
  item <- getitem properties "Item" ;;
  title <- getitem item "title" ;;
  first <- getindex title 0 ;;
  text <- getitem first "text" ;;
  getitem text "content".

(** [c.isalnum() or c in (' ','-','_')] for a one-character [c]. *)
Definition keep_char (c : ascii) : bool :=
  isalnum c || Ascii.eqb c " " || Ascii.eqb c "-" || Ascii.eqb c "_".

(** The same test when [c] is an element of a [list] or a key of a [dict]. *)
Definition keep_element (c : json) : result (option string) :=
  match c with
  | JStr s =>
      Ok (if str_isalnum s || (s =? " ") || (s =? "-") || (s =? "_")
          then Some s else None)
  | _ => Raise AttributeError
  end.

Fixpoint somes (l : list (option string)) : list string :=
  match l with
  | [] => []
  | Some s :: l' => s :: somes l'
  | None :: l' => somes l'
  end.

(** ["".join(c for c in item_name if ...).rstrip()] *)
Definition safe_filename (item_name : json) : result string :=
  match item_name with
  | JStr s => Ok (rstrip (filter_string keep_char s))
  | JList _ | JDict _ =>
      elements <- iterate item_name ;;
      kept <- mapM keep_element elements ;;
      Ok (rstrip (String.concat "" (somes kept)))
  | _ => Raise TypeError
  end.

(** [f"https://www.notion.so/{page_id.replace('-', '')}"] *)
Definition base_url : string := "https://www.notion.so/".

Definition notion_url (page_id : json) : result string :=
  match page_id with
  | JStr s => Ok (base_url ++ remove_hyphens s)%string
  | _ => Raise AttributeError
  end.

Definition generate_item_qr (now : DateTime) (page_id properties : json)
  : result Artifact :=
  has_item <- contains_item properties ;;
  missing <- (if has_item then
                item <- getitem properties "Item" ;;
                title <- getitem item "title" ;;
                Ok (negb (truthy title))
              else Ok true) ;;
  if missing then Raise ValueError
  else
    item_name <- title_content properties ;;
    url <- notion_url page_id ;;
    safe <- safe_filename item_name ;;
    Ok (mkArtifact url (safe ++ "_" ++ strftime_Ymd now ++ ".png")%string).

(** ** qr_generator.py: [generate_all_qrs] (lines 107-195) *)

(** *** The query loop (lines 119-139) *)

Definition batch_query (start_cursor : option string) : QueryParams :=
  mkQuery true
          (match start_cursor with
           | Some s => if s =? "" then None else Some s
           | None => None
           end)
          100.

(** The [while True:] loop; [n] counts the queries already made, [None]
    when [fuel] iterations were not enough to reach the [break]. *)
Fixpoint query_loop (remote : Remote) (fuel : nat) (n : nat)
  (all_results : list json) (start_cursor : option string)
  : option (result (list json)) :=
  match fuel with
  | O => None
  | S fuel' =>
      match remote n (batch_query start_cursor) with
      | Raise e => Some (Raise e)
      | Ok response =>
          let all_results' := all_results ++ results response in
          if negb (has_more response) then Some (Ok all_results')
          else query_loop remote fuel' (S n) all_results' (next_cursor response)
      end
  end.

(** *** The grouping pass (lines 144-166) *)

Record ItemGroup : Type := mkGroup {
  items : list json;
  total_quantity : Z
}.

(** [items_by_name]: a [dict] in insertion order. *)
Definition Groups : Type := list (json * ItemGroup).

Definition hashable (v : json) : bool :=
  match v with
  | JList _ | JDict _ => false
  | _ => true
  end.

(** Equality of two hashable values as [dict] keys: [True == 1] and
    [False == 0]. *)
Definition as_number (v : json) : option Z :=
  match v with
  | JNum z => Some z
  | JBool b => Some (if b then 1 else 0)%Z
  | _ => None
  end.

Definition key_eqb (a b : json) : bool :=
  match a, b with
  | JNull, JNull => true
  | JStr s, JStr s' => s =? s'
  | _, _ =>
      match as_number a, as_number b with
      | Some x, Some y => (x =? y)%Z
      | _, _ => false
      end
  end.

Fixpoint group_find (k : json) (g : Groups) : option ItemGroup :=
  match g with
  | [] => None
  | (k', d) :: g' => if key_eqb k k' then Some d else group_find k g'
  end.

Fixpoint group_update (k : json) (f : ItemGroup -> ItemGroup) (g : Groups)
  : Groups :=
  match g with
  | [] => []
  | (k', d) :: g' =>
      if key_eqb k k' then (k', f d) :: g' else (k', d) :: group_update k f g'
  end.

(** [item['properties']['Item']['title'][0]['text']['content']] *)
Definition item_name_of (item : json) : result json :=
  properties <- getitem item "properties" ;;
  title_content properties.

(** The body of the inner [try] (lines 157-160): [Some qty] when the
    [+= qty] is reached, [None] when the [if] is not entered. *)
Definition quantity_of (item : json) : result (option Z) :=
  properties <- getitem item "properties" ;;
  quantity <- dict_get properties "Quantity" (JDict []) ;;
  quantity_text <- dict_get quantity "rich_text" (JList []) ;;
  if truthy quantity_text then
    first <- getindex quantity_text 0 ;;
    text <- dict_get first "text" (JDict []) ;;
    content <- dict_get text "content" JNull ;;
    if truthy content then
      first' <- getindex quantity_text 0 ;;
      text' <- getitem first' "text" ;;
      content' <- getitem text' "content" ;;
      qty <- py_int content' ;;
      Ok (Some qty)
    else Ok None
  else Ok None.

(** [except (ValueError, KeyError, IndexError):] *)
Definition caught_inner (e : exn) : bool :=
  match e with
  | ValueError | KeyError | IndexError => true
  | _ => false
  end.

Definition add_member (item : json) (d : ItemGroup) : ItemGroup :=
  mkGroup (items d ++ [item]) (total_quantity d).

Definition add_quantity (q : Z) (d : ItemGroup) : ItemGroup :=
  mkGroup (items d) (total_quantity d + q).

(** One iteration of [for item in all_results:].  An exception that
    reaches the outer [except] leaves [items_by_name] as it is at that
    point. *)
Definition process_item (items_by_name : Groups) (item : json) : Groups :=
  match item_name_of item with
  | Raise _ => items_by_name
  | Ok item_name =>
      if hashable item_name then
        let created :=
          match group_find item_name items_by_name with
          | Some _ => items_by_name
          | None => items_by_name ++ [(item_name, mkGroup [] 0)]
          end in
        let appended := group_update item_name (add_member item) created in
        match quantity_of item with
        | Ok (Some qty) => group_update item_name (add_quantity qty) appended
        | Ok None => appended
        | Raise e =>
            if caught_inner e
            then group_update item_name (add_quantity 1) appended
            else appended
        end
      else items_by_name
  end.

Definition group_by_name (all_results : list json) : Groups :=
  fold_left process_item all_results [].

(** *** The rendering pass (lines 170-184) *)

(** One iteration of [for item_name, data in items_by_name.items():]. *)
Definition render_group (now : DateTime) (data : ItemGroup) : result Artifact :=
  first_item <- getindex (JList (items data)) 0 ;;
  page_id <- getitem first_item "id" ;;
  properties <- getitem first_item "properties" ;;
  generate_item_qr now page_id properties.

(** The artifacts written, in order; a group whose rendering raises is
    skipped. *)
Fixpoint render_groups (now : DateTime) (g : Groups) : list Artifact :=
  match g with
  | [] => []
  | (_, data) :: g' =>
      match render_group now data with
      | Ok a => a :: render_groups now g'
      | Raise _ => render_groups now g'
      end
  end.

Record RunReport : Type := mkRun {
  found : list json;
  groups : Groups;
  artifacts : list Artifact
}.

(** [generate_all_qrs]; [schema] is the outcome of [get_database_schema],
    whose exception ends the run, like one of the query loop. *)
Definition generate_all_qrs (schema : result json) (remote : Remote)
  (now : DateTime) (fuel : nat) : option (result RunReport) :=
  match schema with
  | Raise e => Some (Raise e)
  | Ok _ =>
      match query_loop remote fuel 0 [] None with
      | None => None
      | Some (Raise e) => Some (Raise e)
      | Some (Ok all_results) =>
          let items_by_name := group_by_name all_results in
          Some (Ok (mkRun all_results items_by_name
                          (render_groups now items_by_name)))
      end
  end.

(** ** The flattening rule, as the specification words it *)

(** Fragment [f] carries the plain text [s]. *)
Definition fragment_text (f : json) (s : string) : Prop :=
  getitem f "plain_text" = Ok (JStr s).

(** [flattened_as prop_data v]: the dispatch table of the flattener.  A
    property of kind title or rich_text flattens to the concatenation of its
    fragments' plain texts, in order; a property of any other kind flattens
    to the payload stored under the name of its kind. *)
Inductive flattened_as : json -> json -> Prop :=
| flat_title (prop_data : json) (frags : list json) (texts : list string) :
    getitem prop_data "type" = Ok (JStr "title") ->
    getitem prop_data "title" = Ok (JList frags) ->
    Forall2 fragment_text frags texts ->
    flattened_as prop_data (JStr (String.concat "" texts))
| flat_rich_text (prop_data : json) (frags : list json) (texts : list string) :
    getitem prop_data "type" = Ok (JStr "rich_text") ->
    getitem prop_data "rich_text" = Ok (JList frags) ->
    Forall2 fragment_text frags texts ->
    flattened_as prop_data (JStr (String.concat "" texts))
| flat_other (prop_data : json) (kind : string) (payload : json) :
    getitem prop_data "type" = Ok (JStr kind) ->
    kind <> "title" ->
    kind <> "rich_text" ->
    getitem prop_data kind = Ok payload ->
    flattened_as prop_data payload.

Definition flattened_entry (e e' : string * json) : Prop :=
  fst e = fst e' /\ flattened_as (snd e) (snd e').

(** A flattened value presented again as a property of the pass-through
    kind [kind], with the value as its payload. *)
Definition as_other (kind : string) (v : json) : json :=
  JDict [("type", JStr kind); (kind, v)].

Definition retag (kind : string) (flat : list (string * json))
  : list (string * json) :=
  map (fun e => (fst e, as_other kind (snd e))) flat.

(** ** Sample data *)

(** A text fragment as the remote store sends it. *)
Definition fragment (s : string) : json :=
  JDict [("type", JStr "text");
         ("text", JDict [("content", JStr s)]);
         ("plain_text", JStr s)].

Definition title_property (texts : list string) : json :=
  JDict [("id", JStr "title"); ("type", JStr "title");
         ("title", JList (map fragment texts))].

Definition rich_text_property (texts : list string) : json :=
  JDict [("id", JStr "rt"); ("type", JStr "rich_text");
         ("rich_text", JList (map fragment texts))].

Definition number_property (z : Z) : json :=
  JDict [("id", JStr "nb"); ("type", JStr "number"); ("number", JNum z)].

Definition record (id : string) (props : list (string * json)) : json :=
  JDict [("id", JStr id);
         ("url", JStr "https://www.notion.so/x");
         ("created_time", JStr "2024-01-01T00:00:00.000Z");
         ("last_edited_time", JStr "2024-01-02T00:00:00.000Z");
         ("properties", JDict props)].

Definition sample_bag : list (string * json) :=
  [("Item", title_property ["Wid"; "get"]);
   ("Notes", rich_text_property []);
   ("Count", number_property 3)].

(** ** The course of a run against a remote store *)

(** The cursor [test_pagination] sends in round [i] when the answers of the
    earlier rounds were [ps 0], ..., [ps (i-1)]. *)
Definition pagination_cursor (ps : nat -> Page) (i : nat) : option string :=
  match i with
  | O => None
  | S j => next_cursor (ps j)
  end.

(** The value of [start_cursor] at the start of round [k] of the query loop
    of [generate_all_qrs], and the answer of the remote store in that
    round. *)
Fixpoint batch_cursor (remote : Remote) (k : nat) : option string :=
  match k with
  | O => None
  | S j =>
      match remote j (batch_query (batch_cursor remote j)) with
      | Ok response => next_cursor response
      | Raise _ => None
      end
  end.

Definition batch_response (remote : Remote) (k : nat) : result Page :=
  remote k (batch_query (batch_cursor remote k)).

(** A store that never runs dry: every answer holds one record and reports
    [has_more]. *)
Definition endless_page : Page :=
  mkPage [record "abc-1" sample_bag] true (Some "cursor").

Definition endless : Remote := fun _ _ => Ok endless_page.

(** A store of thirteen pages: only the last one reports no more. *)
Definition thirteen_pages : Remote :=
  fun n _ =>
    Ok (mkPage [record "abc-1" sample_bag] (n <? 12)%nat (Some "cursor")).

(** [record "abc-1" sample_bag] as [test_database_access] formats it. *)
Definition sample_formatted : json :=
  JDict [("id", JStr "abc-1");
         ("url", JStr "https://www.notion.so/x");
         ("created_time", JStr "2024-01-01T00:00:00.000Z");
         ("last_edited_time", JStr "2024-01-02T00:00:00.000Z");
         ("properties",
          JDict [("Item", JStr "Widget"); ("Notes", JStr ""); ("Count", JNum 3)])].

(** ** The vocabulary of the grouping claims *)

(** [same_key k item]: the name extracted from [item] can be a key and is
    the key [k]. *)
Definition same_key (k : json) (item : json) : bool :=
  match item_name_of item with
  | Ok name => hashable name && key_eqb name k
  | Raise _ => false
  end.

(** [named n item]: the name extracted from [item] is the string [n],
    character for character. *)
Definition named (n : string) (item : json) : bool :=
  match item_name_of item with
  | Ok (JStr s) => s =? n
  | _ => false
  end.

(** The record has an [Item] property with a title payload of at least one
    fragment. *)
Definition has_item_title (item : json) : bool :=
  match getitem item "properties" with
  | Ok properties =>
      match getitem properties "Item" with
      | Ok item_property =>
          match getitem item_property "title" with
          | Ok (JList (_ :: _)) => true
          | _ => false
          end
      | Raise _ => false
      end
  | Raise _ => false
  end.

(** Every key of the dictionary can be a key and occurs once. *)
Fixpoint distinct_keys (g : Groups) : Prop :=
  match g with
  | [] => True
  | (k, _) :: g' =>
      hashable k = true /\ group_find k g' = None /\ distinct_keys g'
  end.

(** What [items_by_name] holds once the records [processed] have been
    handled: distinct keys, and under every key exactly the records of that
    name, in order, at least one. *)
Definition groups_of (processed : list json) (g : Groups) : Prop :=
  distinct_keys g
  /\ forall k, hashable k = true ->
       match group_find k g with
       | Some d => items d = filter (same_key k) processed /\ items d <> []
       | None => filter (same_key k) processed = []
       end.

(** ** Sample records *)

Definition widget_1 : json :=
  record "11111111-aaaa" [("Item", title_property ["Widget"]);
                          ("Quantity", rich_text_property ["5"])].

Definition widget_2 : json :=
  record "22222222-bbbb" [("Item", title_property ["Widget"; " (spare)"])].

Definition bolt : json :=
  record "abc-1" [("Item", title_property ["Bolt"])].

Definition bolt_lower : json :=
  record "abc-2" [("Item", title_property ["bolt"])].

Definition bolt_spaced : json :=
  record "abc-3" [("Item", title_property ["Bolt "])].

Definition bolt_no_fragments : json :=
  record "abc-4" [("Item", title_property []);
                  ("Quantity", rich_text_property ["7"])].

Definition untitled : json :=
  record "abc-5" [("Name", title_property ["Bolt"])].

Definition bolt_empty_quantity : json :=
  record "abc-6" [("Item", title_property ["Bolt"]);
                  ("Quantity", rich_text_property [])].

Definition bolt_five : json :=
  record "abc-7" [("Item", title_property ["Bolt"]);
                  ("Quantity", rich_text_property ["5"])].

Definition bolt_lots : json :=
  record "abc-8" [("Item", title_property ["Bolt"]);
                  ("Quantity", rich_text_property ["lots"])].

Definition today : DateTime := mkDate 2026 11 4.

(** ** The file name, as the specification words it *)

(** The class [[A-Za-z0-9 _-]]. *)
Definition claimed_char (c : ascii) : bool :=
  ascii_alnum c || Ascii.eqb c " " || Ascii.eqb c "_" || Ascii.eqb c "-".

(** The item name without the characters outside the class, trailing white
    space trimmed, then the date and the extension. *)
Definition claimed_filename (now : DateTime) (item_name : string) : string :=
  (rstrip (filter_string claimed_char item_name)
   ++ "_" ++ strftime_Ymd now ++ ".png")%string.

Fixpoint all_ascii (s : string) : bool :=
  match s with
  | EmptyString => true
  | String c s' => (code c <? 128)%N && all_ascii s'
  end.

(** U+00E9, LATIN SMALL LETTER E WITH ACUTE. *)
Definition e_acute : ascii := "233"%char.

Definition cafe : string := String "C" (String "a" (String "f" (String e_acute ""))).

Definition cafe_record : json :=
  record "abc-9" [("Item", title_property [cafe])].

Definition m8_record : json :=
  record "0a1b-2c3d-4e5f" [("Item", title_property ["M8 bolt/zinc! "; "x"])].

(** ** The quantity added for one record *)

(** What the grouping pass adds to [total_quantity] for a record it has
    appended to a group. *)
Definition quantity_increment (item : json) : Z :=
  match quantity_of item with
  | Ok (Some qty) => qty
  | Ok None => 0
  | Raise e => if caught_inner e then 1 else 0
  end.

(** [total_quantity] of the group named [n] after the grouping pass. *)
Definition group_total (n : string) (all_results : list json) : option Z :=
  option_map total_quantity (group_find (JStr n) (group_by_name all_results)).

(** ** Measures of the grouping pass *)

(** The grouping pass takes the record in: its name can be extracted and
    can be a key. *)
Definition accepted (item : json) : bool :=
  match item_name_of item with
  | Ok name => hashable name
  | Raise _ => false
  end.

(** All the members of all the groups, group after group. *)
Definition members (g : Groups) : list json :=
  concat (map (fun e => items (snd e)) g).

Definition zsum (l : list Z) : Z := fold_right Z.add 0%Z l.

(** Every character of the string passes the test. *)
Fixpoint all_chars (test : ascii -> bool) (s : string) : bool :=
  match s with
  | EmptyString => true
  | String c s' => test c && all_chars test s'
  end.

Definition not_hyphen (c : ascii) : bool := negb (Ascii.eqb c "-").

Definition bolt_twelve : json :=
  record "abc-10" [("Item", title_property ["Bolt"]);
                   ("Quantity", rich_text_property ["1"; "2"])].

(** ** main.py: [get_notion_pages] (lines 79-99) *)

(** [except Exception as e: raise HTTPException(status_code=500, ...)] *)
Definition http_500 {A : Type} (r : result A) : result A :=
  match r with
  | Ok a => Ok a
  | Raise e => Raise (HTTPException 500 e)
  end.

(** The [formatted_page] of [get_notion_pages]. *)
Definition raw_page (page : json) : result json :=
  id <- getitem page "id" ;;
  url <- getitem page "url" ;;
  properties <- getitem page "properties" ;;
  Ok (JDict [("id", id); ("url", url); ("properties", properties)]).

(** [get_notion_pages]; [answer] is the outcome of its one query. *)
Definition get_notion_pages (answer : result Page) : result (list json) :=
  http_500 (response <- answer ;; mapM raw_page (results response)).

(** ** main.py: [get_notion_page] (lines 101-132) *)

Definition content_kinds : list string :=
  ["paragraph"; "heading_1"; "heading_2"; "heading_3"; "bulleted_list_item"].

(** [block_type in [...]] *)
Definition in_content_kinds (block_type : json) : bool :=
  existsb (is_kind block_type) content_kinds.

(** [k in o] for a [str] [k]. *)
Definition py_in (k : string) (o : json) : result bool :=
  match o with
  | JDict d => Ok (match lookup k d with Some _ => true | None => false end)
  | JList l => Ok (existsb (fun v => is_kind v k) l)
  | JStr s => Ok (match index 0 k s with Some _ => true | None => false end)
  | _ => Raise TypeError
  end.

(** [for text in ...: text_content += text["plain_text"]] *)
Fixpoint append_plain_texts (text_content : string) (texts : list json)
  : result string :=
  match texts with
  | [] => Ok text_content
  | text :: rest =>
      plain <- getitem text "plain_text" ;;
      s <- as_str plain ;;
      append_plain_texts (text_content ++ s)%string rest
  end.

(** The text of a block, from [block[block_type]]. *)
Definition block_text (payload : json) : result string :=
  has_rich_text <- py_in "rich_text" payload ;;
  if has_rich_text then
    rich_text <- getitem payload "rich_text" ;;
    texts <- iterate rich_text ;;
    append_plain_texts "" texts
  else Ok "".

(** One iteration of [for block in blocks["results"]:]: the entry appended
    to [content], if any. *)
Definition format_block (block : json) : result (option json) :=
  block_type <- getitem block "type" ;;
  if in_content_kinds block_type then
    payload <- match block with
               | JDict d => getitem_val d block_type
               | _ => Raise TypeError
               end ;;
    text_content <- block_text payload ;;
    Ok (Some (JDict [("type", block_type); ("content", JStr text_content)]))
  else Ok None.

Fixpoint page_content (blocks : list json) : result (list json) :=
  match blocks with
  | [] => Ok []
  | block :: rest =>
      entry <- format_block block ;;
      content <- page_content rest ;;
      Ok (match entry with
          | Some c => c :: content
          | None => content
          end)
  end.

(** [get_notion_page]; [page] and [blocks] are the outcomes of the two
    remote calls. *)
Definition get_notion_page (page : result json) (blocks : result Page)
  : result json :=
  http_500 (metadata <- page ;;
            children <- blocks ;;
            content <- page_content (results children) ;;
            Ok (JDict [("metadata", metadata); ("content", JList content)])).

(** ** qr_generator.py: [get_database_schema] (lines 34-49) *)

(** [{key: prop["type"] for key, prop in properties.items()}] *)
Fixpoint schema_types (acc : list (string * json)) (props : list (string * json))
  : result (list (string * json)) :=
  match props with
  | [] => Ok acc
  | (key, prop) :: rest =>
      t <- getitem prop "type" ;;
      schema_types (dict_set acc key t) rest
  end.

(** [get_database_schema], from the database object the remote store
    returns. *)
Definition get_database_schema (response : json) : result json :=
  properties <- getitem response "properties" ;;
  title <- getitem response "title" ;;
  name <- (if truthy title then
             title' <- getitem response "title" ;;
             first <- getindex title' 0 ;;
             text <- getitem first "text" ;;
             getitem text "content"
           else Ok (JStr "Untitled")) ;;
  entries <- dict_items properties ;;
  types <- schema_types [] entries ;;
  Ok (JDict [("name", name); ("properties", JDict types)]).

(** Sample blocks and a sample database. *)
Definition paragraph_block (texts : list string) : json :=
  JDict [("id", JStr "b1"); ("type", JStr "paragraph");
         ("paragraph", JDict [("rich_text", JList (map fragment texts))])].

Definition image_block : json :=
  JDict [("id", JStr "b2"); ("type", JStr "image");
         ("image", JDict [("type", JStr "external")])].

Definition sample_database (title : list string) : json :=
  JDict [("object", JStr "database");
         ("title", JList (map fragment title));
         ("properties", JDict sample_bag)].

(** * Properties *)

(** ** The error monad *)

Lemma bind_ok {A B : Type} (r : result A) (k : A -> result B) (a : A) :
  r = Ok a -> bind r k = k a.
Proof. intros ->. reflexivity. Qed.

Lemma mapM_ok {A B : Type} (f : A -> result B) (g : A -> B) (l : list A) :
  (forall a, In a l -> f a = Ok (g a)) -> mapM f l = Ok (map g l).
Proof.
  induction l as [|a l IH]; intros H; simpl.
  - reflexivity.
  - rewrite (H a (or_introl eq_refl)). simpl.
    rewrite IH by (intros b Hb; apply H; right; exact Hb).
    reflexivity.
Qed.

Lemma mapM_Forall2 {A B : Type} (f : A -> result B) (l : list A) (l' : list B) :
  Forall2 (fun a b => f a = Ok b) l l' -> mapM f l = Ok l'.
Proof.
  induction 1 as [|a b l l' Hab _ IH]; simpl.
  - reflexivity.
  - rewrite Hab. simpl. rewrite IH. reflexivity.
Qed.

(** ** Dictionaries *)

Lemma dict_set_fresh (d : list (string * json)) (k : string) (v : json) :
  ~ In k (map fst d) -> dict_set d k v = d ++ [(k, v)].
Proof.
  induction d as [|[k' v'] d IH]; simpl; intros Hk.
  - reflexivity.
  - destruct (String.eqb_spec k k') as [->|Hne].
    + exfalso. apply Hk. left. reflexivity.
    + rewrite IH; [reflexivity|]. intros Hin. apply Hk. right. exact Hin.
Qed.

Lemma dict_set_keys (d : list (string * json)) (k : string) (v : json) :
  In k (map fst d) -> map fst (dict_set d k v) = map fst d.
Proof.
  induction d as [|[k' v'] d IH]; simpl; intros Hk.
  - contradiction.
  - destruct (String.eqb_spec k k') as [->|Hne]; simpl.
    + reflexivity.
    + f_equal. apply IH. destruct Hk as [Hk|Hk]; [congruence|exact Hk].
Qed.

Lemma dict_set_NoDup (d : list (string * json)) (k : string) (v : json) :
  NoDup (map fst d) -> NoDup (map fst (dict_set d k v)).
Proof.
  intros Hd. destruct (in_dec string_dec k (map fst d)) as [Hin|Hout].
  - rewrite dict_set_keys by exact Hin. exact Hd.
  - rewrite dict_set_fresh by exact Hout.
    rewrite map_app. simpl.
    apply NoDup_app; [exact Hd|repeat constructor; intros []|].
    intros x Hx [<-|[]]. exact (Hout Hx).
Qed.

(** ** The flattener *)

Lemma join_plain_text_fragments (frags : list json) (texts : list string) :
  Forall2 fragment_text frags texts ->
  join_plain_text (JList frags) = Ok (JStr (String.concat "" texts)).
Proof.
  intros H. unfold join_plain_text. simpl.
  assert (Hitems : mapM (fun text => getitem text "plain_text") frags
                   = Ok (map JStr texts)).
  { apply mapM_Forall2.
    induction H as [|f s frags texts Hfs _ IH]; simpl; constructor; assumption. }
  rewrite Hitems. simpl.
  assert (Hstrs : mapM as_str (map JStr texts) = Ok texts).
  { clear. induction texts as [|s texts IH]; simpl.
    - reflexivity.
    - rewrite IH. reflexivity. }
  rewrite Hstrs. reflexivity.
Qed.

Lemma is_kind_str (s kind : string) : is_kind (JStr s) kind = (s =? kind).
Proof. reflexivity. Qed.

Lemma flatten_property_rule (prop_data v : json) :
  flattened_as prop_data v -> flatten_property prop_data = Ok v.
Proof.
  intros H. unfold flatten_property.
  destruct H as [p frags texts Ht Hp Hf | p frags texts Ht Hp Hf
                | p kind payload Ht Hn1 Hn2 Hp].
  - rewrite Ht. simpl. rewrite Hp. simpl.
    apply join_plain_text_fragments. exact Hf.
  - rewrite Ht. simpl. rewrite Hp. simpl.
    apply join_plain_text_fragments. exact Hf.
  - rewrite Ht. simpl.
    destruct (String.eqb_spec kind "title") as [E|_]; [contradiction|].
    destruct (String.eqb_spec kind "rich_text") as [E|_]; [contradiction|].
    destruct p; try discriminate Ht. simpl. exact Hp.
Qed.

Lemma flatten_into_rule (props out acc : list (string * json)) :
  Forall2 flattened_entry props out ->
  NoDup (map fst acc ++ map fst props) ->
  flatten_into acc props = Ok (acc ++ out).
Proof.
  intros H. revert acc.
  induction H as [|[k p] [k' v] props out [Hk Hv] _ IH]; intros acc Hnd; simpl.
  - rewrite app_nil_r. reflexivity.
  - simpl in Hk, Hv. subst k'.
    rewrite (flatten_property_rule _ _ Hv). simpl.
    assert (Hfresh : ~ In k (map fst acc)).
    { intros Hin. apply NoDup_remove_2 in Hnd. apply Hnd.
      apply in_or_app. left. exact Hin. }
    rewrite dict_set_fresh by exact Hfresh.
    rewrite IH.
    + rewrite <- app_assoc. reflexivity.
    + rewrite map_app. simpl. rewrite <- app_assoc. simpl.
      simpl in Hnd. exact Hnd.
Qed.

Lemma flatten_into_NoDup (props acc out : list (string * json)) :
  flatten_into acc props = Ok out ->
  NoDup (map fst acc) -> NoDup (map fst out).
Proof.
  revert acc. induction props as [|[k p] props IH]; simpl; intros acc H Hnd.
  - injection H as <-. exact Hnd.
  - destruct (flatten_property p) as [v|e]; simpl in H; [|discriminate].
    apply (IH _ H). apply dict_set_NoDup. exact Hnd.
Qed.

Lemma as_other_flattened (kind : string) (v : json) :
  kind <> "title" -> kind <> "rich_text" -> kind <> "type" ->
  flattened_as (as_other kind v) v.
Proof.
  intros H1 H2 H3. apply (flat_other _ kind); try assumption.
  - reflexivity.
  - unfold as_other, getitem. simpl.
    destruct (String.eqb_spec kind "type") as [E|_]; [contradiction|].
    rewrite String.eqb_refl. reflexivity.
Qed.

(** C4.  For every property bag (a dictionary, so with distinct names) whose
    properties follow the dispatch table [flattened_as] -- title and
    rich_text properties carrying a list of fragments with a plain text
    each, any other kind carrying a payload under the name of the kind --
    the flattener returns exactly the bag of the values the table gives:
    the concatenation of all the plain texts in source order (the empty
    string for an empty fragment list), or the payload unchanged. *)
Theorem flatten_properties_by_kind (props out : list (string * json)) :
  NoDup (map fst props) ->
  Forall2 flattened_entry props out ->
  flatten_properties props = Ok out.
Proof.
  intros Hnd H. unfold flatten_properties.
  rewrite (flatten_into_rule props out []); [reflexivity|exact H|exact Hnd].
Qed.

(** Presenting every value of a flattened bag again as a property of a
    pass-through kind and flattening once more returns the bag. *)
Lemma flatten_retagged (props flat : list (string * json))
  (kind : string) :
  flatten_properties props = Ok flat ->
  kind <> "title" -> kind <> "rich_text" -> kind <> "type" ->
  flatten_properties (retag kind flat) = Ok flat.
Proof.
  intros Hflat H1 H2 H3. unfold flatten_properties.
  rewrite (flatten_into_rule (retag kind flat) flat []); [reflexivity| |].
  - unfold retag. clear Hflat.
    induction flat as [|[k v] flat IH]; simpl; constructor.
    + split; [reflexivity|]. simpl. apply as_other_flattened; assumption.
    + exact IH.
  - unfold retag. rewrite map_map. simpl.
    apply (flatten_into_NoDup props [] flat Hflat). constructor.
Qed.

Lemma fragment_texts (texts : list string) :
  Forall2 fragment_text (map fragment texts) texts.
Proof.
  induction texts as [|s texts IH]; simpl; constructor.
  - reflexivity.
  - exact IH.
Qed.

Lemma flatten_properties_by_kind_witness :
  flatten_properties sample_bag
  = Ok [("Item", JStr "Widget"); ("Notes", JStr ""); ("Count", JNum 3)].
Proof.
  apply (flatten_properties_by_kind sample_bag).
  - simpl. repeat constructor; simpl; intuition discriminate.
  - repeat constructor; simpl.
    + apply (flat_title _ (map fragment ["Wid"; "get"]) ["Wid"; "get"]);
        [reflexivity|reflexivity|apply fragment_texts].
    + apply (flat_rich_text _ [] []); [reflexivity|reflexivity|constructor].
    + apply (flat_other _ "number"); [reflexivity|discriminate|discriminate|reflexivity].
Defined.


(** Applied to a flattened bag as it is, with no kind given to its values,
    the flattener raises: a string has no ["type"] entry. *)
Lemma flatten_properties_bare_value :
  flatten_properties [("Item", JStr "Widget")] = Raise TypeError.
Proof. reflexivity. Qed.

(** ** The pagination loop of [test_pagination] *)

Lemma test_database_access_ok (remote : Remote) (n : nat) (c : option string)
  (p : Page) (fl : list json) :
  remote n (mkQuery false c 10) = Ok p ->
  mapM format_page (results p) = Ok fl ->
  test_database_access remote n (mkPagination c 10)
  = Ok (mkFormatted fl (has_more p) (next_cursor p)).
Proof.
  intros Hr Hf. unfold test_database_access. simpl.
  change (Z.min 10 100) with 10%Z.
  rewrite Hr. simpl. rewrite Hf. reflexivity.
Qed.

Section AlwaysMore.
Variable remote : Remote.
Variable ps : nat -> Page.
Variable fl : nat -> list json.
Hypothesis answers :
  forall i, i < 10 -> remote i (mkQuery false (pagination_cursor ps i) 10) = Ok (ps i).
Hypothesis always_more : forall i, i < 10 -> has_more (ps i) = true.
Hypothesis formatted :
  forall i, i < 10 -> mapM format_page (results (ps i)) = Ok (fl i).

Lemma pagination_loop_always_more (d : nat) :
  forall (k fuel : nat) (acc : list json),
    k + S d = 10 -> S d <= fuel ->
    pagination_loop remote fuel (mkState acc true (pagination_cursor ps k) k)
    = Some (Ok (mkState (acc ++ concat (map fl (seq k (S d)))) true
                        (next_cursor (ps 9)) 10)).
Proof.
  induction d as [|d IH]; intros k fuel acc Hk Hfuel;
    (destruct fuel as [|fuel]; [lia|]);
    assert (Hlt : k < 10) by lia;
    cbn [pagination_loop more cursor page_count all_pages];
    rewrite (test_database_access_ok remote k _ (ps k) (fl k)
               (answers k Hlt) (formatted k Hlt));
    cbn [f_results f_has_more f_next_cursor page_count].
  - assert (k = 9) by lia. subst k.
    rewrite (always_more 9 Hlt). simpl. rewrite app_nil_r. reflexivity.
  - destruct (Nat.leb_spec 10 (S k)) as [Hge|_]; [lia|].
    rewrite (always_more k Hlt).
    change (next_cursor (ps k)) with (pagination_cursor ps (S k)).
    rewrite IH by lia.
    rewrite <- app_assoc. reflexivity.
Qed.
End AlwaysMore.

(** Whatever the remote store answers, ten iterations are enough for the
    loop to end, and it never counts more than ten rounds. *)
Lemma pagination_loop_terminates (remote : Remote) (fuel : nat) :
  forall st : PaginationState,
    1 <= fuel -> 10 - page_count st <= fuel ->
    exists r, pagination_loop remote fuel st = Some r
              /\ forall st', r = Ok st' ->
                   page_count st' <= Nat.max 10 (S (page_count st)).
Proof.
  induction fuel as [|fuel IH]; intros st H1 H2; [lia|].
  cbn [pagination_loop].
  destruct (more st).
  - destruct (test_database_access remote (page_count st)
                (mkPagination (cursor st) 10)) as [response|e].
    + cbn [page_count].
      destruct (Nat.leb_spec 10 (S (page_count st))) as [Hge|Hlt].
      * eexists. split; [reflexivity|].
        intros st' [= <-]. cbn [page_count]. lia.
      * destruct (IH (mkState (all_pages st ++ f_results response)
                              (f_has_more response) (f_next_cursor response)
                              (S (page_count st)))) as [r [Hr Hle]];
          [cbn [page_count]; lia|cbn [page_count]; lia|].
        exists r. split; [exact Hr|].
        intros st' E. specialize (Hle st' E). cbn [page_count] in Hle. lia.
    + eexists. split; [reflexivity|]. intros st' [=].
  - eexists. split; [reflexivity|]. intros st' [= <-]. lia.
Qed.

(** X9.  Whatever the remote store answers, [test_pagination] comes to an
    end within ten iterations of its loop, and a report it returns never
    counts more than ten rounds. *)
Lemma test_pagination_terminates (remote : Remote) (fuel : nat) :
  10 <= fuel ->
  exists r, test_pagination remote fuel = Some r
            /\ forall report, r = Ok report -> pagination_rounds report <= 10.
Proof.
  intros Hfuel. unfold test_pagination.
  destruct (pagination_loop_terminates remote fuel initial_state)
    as [r [Hr Hle]]; [lia|simpl; lia|].
  rewrite Hr. destruct r as [st|e].
  - eexists. split; [reflexivity|].
    intros report [= <-]. cbn [pagination_rounds].
    specialize (Hle st eq_refl). simpl in Hle. exact Hle.
  - eexists. split; [reflexivity|]. intros report [=].
Qed.

(** C3.  The pagination-test loop is capped at 10 rounds: when the remote
    store answers every one of the first ten queries (each sent with page
    size 10 and the cursor of the previous answer) with [has_more] true,
    [test_pagination] ends after exactly 10 rounds and returns the
    concatenation of the ten rounds' flattened results, their number, and
    [pagination_rounds = 10]. *)
Theorem test_pagination_capped (remote : Remote) (ps : nat -> Page)
  (fl : nat -> list json) (fuel : nat) :
  (forall i, i < 10 ->
     remote i (mkQuery false (pagination_cursor ps i) 10) = Ok (ps i)) ->
  (forall i, i < 10 -> has_more (ps i) = true) ->
  (forall i, i < 10 -> mapM format_page (results (ps i)) = Ok (fl i)) ->
  10 <= fuel ->
  test_pagination remote fuel
  = Some (Ok (mkReport (length (concat (map fl (seq 0 10)))) 10
                       (concat (map fl (seq 0 10))))).
Proof.
  intros Ha Hm Hf Hfuel. unfold test_pagination, initial_state.
  change (@None string) with (pagination_cursor ps 0).
  rewrite (pagination_loop_always_more remote ps fl Ha Hm Hf 9 0 fuel [])
    by lia.
  reflexivity.
Qed.

Lemma test_pagination_capped_witness :
  test_pagination endless 10
  = Some (Ok (mkReport 10 10 (repeat sample_formatted 10))).
Proof.
  apply (test_pagination_capped endless (fun _ => endless_page)
           (fun _ => [sample_formatted]) 10).
  - intros i _. reflexivity.
  - intros i _. reflexivity.
  - intros i _. reflexivity.
  - apply le_n.
Defined.

(** ** The query loop of [generate_all_qrs] *)

Lemma batch_cursor_step (remote : Remote) (k : nat) (p : Page) :
  batch_response remote k = Ok p ->
  batch_cursor remote (S k) = next_cursor p.
Proof.
  unfold batch_response. intros H. simpl. rewrite H. reflexivity.
Qed.

Section QueryLoop.
Variable remote : Remote.
Variable ps : nat -> Page.

(** While the answers report [has_more], the loop goes on. *)
Lemma query_loop_goes_on (fuel : nat) :
  forall (n d : nat) (acc : list json),
    (forall i, n <= i < n + d ->
       batch_response remote i = Ok (ps i) /\ has_more (ps i) = true) ->
    fuel <= d ->
    query_loop remote fuel n acc (batch_cursor remote n) = None.
Proof.
  induction fuel as [|fuel IH]; intros n d acc H Hfuel; simpl.
  - reflexivity.
  - destruct (H n) as [Hr Hm]; [lia|].
    unfold batch_response in Hr. rewrite Hr. rewrite Hm. simpl.
    rewrite <- (batch_cursor_step remote n (ps n) Hr).
    apply (IH (S n) (d - 1)); [|lia].
    intros i Hi. apply H. lia.
Qed.

(** The first answer without [has_more] ends it. *)
Lemma query_loop_stops (d : nat) :
  forall (n fuel : nat) (acc : list json),
    (forall i, n <= i < n + d ->
       batch_response remote i = Ok (ps i) /\ has_more (ps i) = true) ->
    batch_response remote (n + d) = Ok (ps (n + d)) ->
    has_more (ps (n + d)) = false ->
    d < fuel ->
    query_loop remote fuel n acc (batch_cursor remote n)
    = Some (Ok (acc ++ concat (map (fun i => results (ps i)) (seq n (S d))))).
Proof.
  induction d as [|d IH]; intros n fuel acc H Hlast Hm Hfuel;
    (destruct fuel as [|fuel]; [lia|]); cbn [query_loop].
  - rewrite Nat.add_0_r in Hlast, Hm.
    unfold batch_response in Hlast. rewrite Hlast. rewrite Hm. simpl.
    rewrite app_nil_r. reflexivity.
  - destruct (H n) as [Hr Hmore]; [lia|].
    pose proof Hr as Hr'. unfold batch_response in Hr'.
    rewrite Hr'. rewrite Hmore. cbn [negb].
    rewrite <- (batch_cursor_step remote n (ps n) Hr).
    rewrite (IH (S n) fuel).
    + rewrite <- app_assoc. reflexivity.
    + intros i Hi. apply H. lia.
    + replace (S n + d) with (n + S d) by lia. exact Hlast.
    + replace (S n + d) with (n + S d) by lia. exact Hm.
    + lia.
Qed.
End QueryLoop.

(** C2, as the code has it.  The query loop of the batch path has no round
    counter: after any number [k] of answers that report [has_more], it is
    still running (no amount of fuel up to [k] lets it end); it ends exactly
    at the first answer whose [has_more] is false, in round [k + 1], with the
    results of all the answers received, in order. *)
Theorem query_loop_ends_at_last_page (remote : Remote) (ps : nat -> Page)
  (k : nat) :
  (forall i, i < k ->
     batch_response remote i = Ok (ps i) /\ has_more (ps i) = true) ->
  (forall fuel, fuel <= k -> query_loop remote fuel 0 [] None = None)
  /\ (batch_response remote k = Ok (ps k) ->
      has_more (ps k) = false ->
      forall fuel, k < fuel ->
        query_loop remote fuel 0 [] None
        = Some (Ok (concat (map (fun i => results (ps i)) (seq 0 (S k)))))).
Proof.
  intros H. split.
  - intros fuel Hfuel.
    change (@None string) with (batch_cursor remote 0).
    apply (query_loop_goes_on remote ps fuel 0 k); [|exact Hfuel].
    intros i Hi. apply H. lia.
  - intros Hlast Hm fuel Hfuel.
    change (@None string) with (batch_cursor remote 0).
    rewrite (query_loop_stops remote ps k 0 fuel []); try assumption.
    + reflexivity.
    + intros i Hi. apply H. lia.
Qed.

Lemma query_loop_ends_at_last_page_witness :
  query_loop thirteen_pages 12 0 [] None = None
  /\ query_loop thirteen_pages 13 0 [] None
     = Some (Ok (repeat (record "abc-1" sample_bag) 13)).
Proof.
  pose (ps := fun n : nat =>
          mkPage [record "abc-1" sample_bag] (n <? 12)%nat (Some "cursor")).
  assert (H : forall i, i < 12 ->
            batch_response thirteen_pages i = Ok (ps i)
            /\ has_more (ps i) = true).
  { intros i Hi. split; [reflexivity|].
    unfold ps. simpl. apply Nat.ltb_lt. exact Hi. }
  destruct (query_loop_ends_at_last_page thirteen_pages ps 12 H) as [Hgo Hend].
  split.
  - apply Hgo. apply le_n.
  - apply (Hend eq_refl eq_refl 13). apply le_n.
Defined.

(** Against a store that always reports [has_more], the loop is still
    running after 10 rounds, and after 1000. *)
Lemma query_loop_not_capped :
  query_loop endless 10 0 [] None = None
  /\ query_loop endless 1000 0 [] None = None.
Proof. split; vm_compute; reflexivity. Qed.

(** ** Keys of [items_by_name] *)

Lemma key_eqb_refl (k : json) : hashable k = true -> key_eqb k k = true.
Proof.
  destruct k as [|[]|z|s|l|d]; simpl; intros H; try reflexivity;
    try discriminate H.
  - apply Z.eqb_refl.
  - apply String.eqb_refl.
Qed.

Lemma key_eqb_sym (a b : json) : key_eqb a b = key_eqb b a.
Proof.
  destruct a as [|[]|x|s|l|d], b as [|[]|y|t|l'|d'];
    unfold key_eqb, as_number;
    try reflexivity; try apply Z.eqb_sym; try apply String.eqb_sym.
Qed.

Lemma key_eqb_trans (a b c : json) :
  key_eqb a b = true -> key_eqb b c = true -> key_eqb a c = true.
Proof.
  destruct a as [|[]|x|s|l|d], b as [|[]|y|t|l'|d'], c as [|[]|z|u|l''|d''];
    unfold key_eqb, as_number; intros H1 H2;
    try discriminate; try reflexivity;
    rewrite ?Z.eqb_eq, ?String.eqb_eq in *; congruence.
Qed.

Lemma key_eqb_cong (a b x : json) :
  key_eqb a b = true -> key_eqb a x = key_eqb b x.
Proof.
  intros H.
  destruct (key_eqb a x) eqn:Ea, (key_eqb b x) eqn:Eb; try reflexivity.
  - rewrite key_eqb_sym in H.
    rewrite (key_eqb_trans b a x H Ea) in Eb. discriminate.
  - rewrite (key_eqb_trans a b x H Eb) in Ea. discriminate.
Qed.


Lemma group_find_cong (a b : json) (g : Groups) :
  key_eqb a b = true -> group_find a g = group_find b g.
Proof.
  intros H. induction g as [|[k d] g IH]; simpl.
  - reflexivity.
  - rewrite (key_eqb_cong a b k H). rewrite IH. reflexivity.
Qed.

Lemma group_find_app (k k' : json) (d : ItemGroup) (g : Groups) :
  group_find k (g ++ [(k', d)])
  = match group_find k g with
    | Some x => Some x
    | None => if key_eqb k k' then Some d else None
    end.
Proof.
  induction g as [|[k0 d0] g IH]; simpl.
  - reflexivity.
  - destruct (key_eqb k k0); [reflexivity|exact IH].
Qed.

Lemma group_find_update (k k' : json) (f : ItemGroup -> ItemGroup) (g : Groups) :
  group_find k (group_update k' f g)
  = if key_eqb k k' then option_map f (group_find k g) else group_find k g.
Proof.
  induction g as [|[k0 d0] g IH]; simpl.
  - destruct (key_eqb k k'); reflexivity.
  - destruct (key_eqb k' k0) eqn:E0; simpl.
    + destruct (key_eqb k k') eqn:E.
      * rewrite (key_eqb_cong k k' k0 E), E0. reflexivity.
      * destruct (key_eqb k k0) eqn:E1; [|reflexivity].
        rewrite key_eqb_sym in E0.
        rewrite (key_eqb_trans k k0 k' E1 E0) in E. discriminate.
    + destruct (key_eqb k k0) eqn:E1.
      * destruct (key_eqb k k') eqn:E; [|reflexivity].
        rewrite <- (key_eqb_cong k k' k0 E), E1 in E0. discriminate.
      * exact IH.
Qed.

Lemma group_update_id (k : json) (g : Groups) :
  group_update k (fun d => d) g = g.
Proof.
  induction g as [|[k0 d0] g IH]; simpl.
  - reflexivity.
  - destruct (key_eqb k k0); [reflexivity|]. rewrite IH. reflexivity.
Qed.

Lemma distinct_keys_update (k : json) (f : ItemGroup -> ItemGroup) (g : Groups) :
  distinct_keys g -> distinct_keys (group_update k f g).
Proof.
  induction g as [|[k0 d0] g IH]; simpl; intros H.
  - exact I.
  - destruct H as [Hh [Hn Hd]].
    destruct (key_eqb k k0); simpl.
    + auto.
    + repeat split; [exact Hh| |apply IH; exact Hd].
      rewrite group_find_update, Hn. destruct (key_eqb k0 k); reflexivity.
Qed.

Lemma distinct_keys_app (k : json) (d : ItemGroup) (g : Groups) :
  distinct_keys g -> hashable k = true -> group_find k g = None ->
  distinct_keys (g ++ [(k, d)]).
Proof.
  induction g as [|[k0 d0] g IH]; simpl; intros H Hk Hf.
  - auto.
  - destruct H as [Hh [Hn Hd]].
    destruct (key_eqb k k0) eqn:E; [discriminate|].
    repeat split; [exact Hh| |apply IH; assumption].
    rewrite group_find_app, Hn, key_eqb_sym, E. reflexivity.
Qed.

Lemma distinct_keys_find (k : json) (d : ItemGroup) (g : Groups) :
  distinct_keys g -> In (k, d) g ->
  hashable k = true /\ group_find k g = Some d.
Proof.
  induction g as [|[k0 d0] g IH]; simpl; intros H Hin.
  - contradiction.
  - destruct H as [Hh [Hn Hd]]. destruct Hin as [E|Hin].
    + injection E as -> ->. split; [exact Hh|].
      rewrite (key_eqb_refl k Hh). reflexivity.
    + destruct (IH Hd Hin) as [Hk Hf]. split; [exact Hk|].
      destruct (key_eqb k k0) eqn:E; [|exact Hf].
      rewrite (group_find_cong k k0 g E), Hn in Hf. discriminate.
Qed.

(** ** The grouping pass *)

Lemma process_item_skips (g : Groups) (item : json) (e : exn) :
  item_name_of item = Raise e -> process_item g item = g.
Proof. unfold process_item. intros ->. reflexivity. Qed.

Lemma process_item_shape (g : Groups) (item name : json) :
  item_name_of item = Ok name -> hashable name = true ->
  exists f : ItemGroup -> ItemGroup,
    (forall d, items (f d) = items d)
    /\ process_item g item
       = group_update name f
           (group_update name (add_member item)
              (match group_find name g with
               | Some _ => g
               | None => g ++ [(name, mkGroup [] 0)]
               end)).
Proof.
  intros En Hh. unfold process_item. rewrite En, Hh.
  destruct (quantity_of item) as [[qty|]|e].
  - exists (add_quantity qty). split; [reflexivity|reflexivity].
  - exists (fun d => d). split; [reflexivity|].
    rewrite group_update_id. reflexivity.
  - destruct (caught_inner e).
    + exists (add_quantity 1). split; [reflexivity|reflexivity].
    + exists (fun d => d). split; [reflexivity|].
      rewrite group_update_id. reflexivity.
Qed.

Lemma filter_snoc (f : json -> bool) (l : list json) (x : json) :
  filter f (l ++ [x]) = filter f l ++ (if f x then [x] else []).
Proof. rewrite filter_app. reflexivity. Qed.

Lemma groups_of_step (processed : list json) (g : Groups) (item : json) :
  groups_of processed g ->
  groups_of (processed ++ [item]) (process_item g item).
Proof.
  intros [Hd Hg].
  destruct (item_name_of item) as [name|e] eqn:En.
  - destruct (hashable name) eqn:Hh.
    + destruct (process_item_shape g item name En Hh) as [f [Hf ->]].
      split.
      * apply distinct_keys_update, distinct_keys_update.
        destruct (group_find name g) eqn:Efind; [exact Hd|].
        apply distinct_keys_app; assumption.
      * intros k Hk. rewrite filter_snoc.
        assert (Hsk : same_key k item = key_eqb name k)
          by (unfold same_key; rewrite En, Hh; reflexivity).
        rewrite Hsk.
        rewrite !group_find_update.
        rewrite (key_eqb_sym name k).
        specialize (Hg k Hk).
        destruct (key_eqb k name) eqn:E.
        -- rewrite (group_find_cong k name g E) in Hg.
           destruct (group_find name g) as [d0|] eqn:Efind.
           ++ rewrite (group_find_cong k name g E), Efind. cbn [option_map].
              rewrite Hf. cbn [add_member items].
              destruct Hg as [-> _]. split; [reflexivity|].
              intros Habs. apply app_eq_nil in Habs.
              destruct Habs as [_ Habs]. discriminate.
           ++ rewrite group_find_app, (group_find_cong k name g E), Efind, E.
              cbn [option_map]. rewrite Hf. cbn [add_member items].
              rewrite Hg. split; [reflexivity|discriminate].
        -- rewrite app_nil_r.
           destruct (group_find name g) as [d0|] eqn:Efind; [exact Hg|].
           rewrite group_find_app, E.
           destruct (group_find k g); exact Hg.
    + unfold process_item. rewrite En, Hh.
      split; [exact Hd|].
      intros k Hk. rewrite filter_snoc.
      assert (Hsk : same_key k item = false)
        by (unfold same_key; rewrite En, Hh; reflexivity).
      rewrite Hsk, app_nil_r. apply Hg. exact Hk.
  - rewrite (process_item_skips g item e En).
    split; [exact Hd|].
    intros k Hk. rewrite filter_snoc.
    assert (Hsk : same_key k item = false)
      by (unfold same_key; rewrite En; reflexivity).
    rewrite Hsk, app_nil_r. apply Hg. exact Hk.
Qed.

Lemma groups_of_fold (rest processed : list json) (g : Groups) :
  groups_of processed g ->
  groups_of (processed ++ rest) (fold_left process_item rest g).
Proof.
  revert processed g. induction rest as [|item rest IH]; intros processed g H.
  - rewrite app_nil_r. exact H.
  - simpl. replace (processed ++ item :: rest) with ((processed ++ [item]) ++ rest)
      by (rewrite <- app_assoc; reflexivity).
    apply IH. apply groups_of_step. exact H.
Qed.

Lemma group_by_name_groups_of (all_results : list json) :
  groups_of all_results (group_by_name all_results).
Proof.
  apply (groups_of_fold all_results [] []).
  split; [exact I|]. intros k _. reflexivity.
Qed.

Lemma named_same_key (n : string) (item : json) :
  named n item = same_key (JStr n) item.
Proof.
  unfold named, same_key.
  destruct (item_name_of item) as [[|[]|z|s|l|d]|e]; reflexivity.
Qed.

Lemma filter_named (n : string) (l : list json) :
  filter (named n) l = filter (same_key (JStr n)) l.
Proof.
  apply filter_ext. intros item. apply named_same_key.
Qed.

(** C6.  [group_by_name] groups by the extracted name as it is: for every
    list of records and every string [n], the group under [n], when there is
    one, holds exactly the records whose extracted name is the string [n]
    character for character, in the order of the list, and there is none
    only when no record has that name.  So two records of the same name are
    both members of one group, and names that differ in any character --
    case or white space included -- have groups of their own. *)
Theorem group_by_name_raw_name (all_results : list json) (n : string) :
  match group_find (JStr n) (group_by_name all_results) with
  | Some d => items d = filter (named n) all_results /\ items d <> []
  | None => filter (named n) all_results = []
  end.
Proof.
  rewrite filter_named.
  destruct (group_by_name_groups_of all_results) as [_ H].
  apply (H (JStr n)). reflexivity.
Qed.

Lemma has_item_title_raises (item : json) :
  has_item_title item = false -> exists e, item_name_of item = Raise e.
Proof.
  unfold has_item_title, item_name_of, title_content.
  destruct (getitem item "properties") as [properties|e]; simpl;
    [|intros _; eexists; reflexivity].
  destruct (getitem properties "Item") as [item_property|e]; simpl;
    [|intros _; eexists; reflexivity].
  destruct (getitem item_property "title") as [title|e]; simpl;
    [|intros _; eexists; reflexivity].
  destruct title as [|b|z|s|l|d]; simpl; intros H;
    try (eexists; reflexivity).
  - destruct s as [|c s]; simpl; eexists; reflexivity.
  - destruct l as [|first rest]; [eexists; reflexivity|discriminate H].
Qed.

Lemma group_members (all_results : list json) (key : json) (d : ItemGroup) :
  In (key, d) (group_by_name all_results) ->
  items d = filter (same_key key) all_results /\ items d <> [].
Proof.
  intros Hin.
  destruct (group_by_name_groups_of all_results) as [Hd Hg].
  destruct (distinct_keys_find key d _ Hd Hin) as [Hk Hf].
  specialize (Hg key Hk). rewrite Hf in Hg. exact Hg.
Qed.

(** C7.  A record without an [Item] title of at least one fragment is a
    member of no group, and the run goes on past it: the groups built from a
    list that holds such a record are the groups built from the list
    without it, so every record after it is handled as if it were not
    there. *)
Theorem missing_title_is_skipped (before after : list json) (item : json) :
  has_item_title item = false ->
  group_by_name (before ++ item :: after) = group_by_name (before ++ after)
  /\ forall (all_results : list json) (key : json) (d : ItemGroup),
       In (key, d) (group_by_name all_results) -> ~ In item (items d).
Proof.
  intros H. destruct (has_item_title_raises item H) as [e He]. split.
  - unfold group_by_name. rewrite !fold_left_app. simpl.
    rewrite (process_item_skips _ item e He). reflexivity.
  - intros all_results key d Hin Hmem.
    destruct (group_members all_results key d Hin) as [Hitems _].
    rewrite Hitems in Hmem. apply filter_In in Hmem.
    destruct Hmem as [_ Hsame]. unfold same_key in Hsame.
    rewrite He in Hsame. discriminate.
Qed.

Lemma missing_title_is_skipped_witness :
  has_item_title untitled = false
  /\ has_item_title bolt_no_fragments = false
  /\ group_by_name ([widget_1] ++ untitled :: [bolt; widget_2])
     = group_by_name ([widget_1] ++ [bolt; widget_2])
  /\ group_by_name ([widget_1] ++ bolt_no_fragments :: [bolt; widget_2])
     = group_by_name ([widget_1] ++ [bolt; widget_2]).
Proof.
  split; [reflexivity|]. split; [reflexivity|]. split.
  - apply (missing_title_is_skipped [widget_1] [bolt; widget_2] untitled).
    reflexivity.
  - apply (missing_title_is_skipped [widget_1] [bolt; widget_2] bolt_no_fragments).
    reflexivity.
Defined.

Lemma filter_first (f : json -> bool) (l : list json) (x : json) (rest : list json) :
  filter f l = x :: rest ->
  exists before after,
    l = before ++ x :: after
    /\ f x = true
    /\ forall r, In r before -> f r = false.
Proof.
  induction l as [|y l IH]; simpl; intros H.
  - discriminate.
  - destruct (f y) eqn:Ey.
    + injection H as -> _. exists [], l. repeat split.
      * exact Ey.
      * intros r [].
    + destruct (IH H) as [before [after [-> [Hx Hb]]]].
      exists (y :: before), after. repeat split.
      * exact Hx.
      * intros r [<-|Hr]; [exact Ey|apply Hb; exact Hr].
Qed.

(** C10.  Every group of the grouping pass has at least one member; its
    first member is the earliest record of the fetched list that has the
    group's name, and the rendering step for the group is the call of
    [generate_item_qr] on the id and the properties of that first member. *)
Theorem group_rendered_from_first_member (all_results : list json)
  (key : json) (d : ItemGroup) (now : DateTime) :
  In (key, d) (group_by_name all_results) ->
  exists (first : json) (rest before after : list json),
    items d = first :: rest
    /\ all_results = before ++ first :: after
    /\ same_key key first = true
    /\ (forall r, In r before -> same_key key r = false)
    /\ render_group now d
       = (page_id <- getitem first "id" ;;
          properties <- getitem first "properties" ;;
          generate_item_qr now page_id properties).
Proof.
  intros Hin.
  destruct (group_members all_results key d Hin) as [Hitems Hne].
  destruct (items d) as [|first rest] eqn:E; [contradiction|].
  symmetry in Hitems.
  destruct (filter_first _ _ _ _ Hitems) as [before [after [Hl [Hf Hb]]]].
  exists first, rest, before, after.
  repeat split; try assumption.
  unfold render_group. rewrite E. reflexivity.
Qed.

Lemma group_rendered_from_first_member_witness :
  exists (first : json) (rest before after : list json),
    [widget_1; widget_2] = first :: rest
    /\ [bolt; widget_1; untitled; widget_2] = before ++ first :: after
    /\ same_key (JStr "Widget") first = true
    /\ (forall r, In r before -> same_key (JStr "Widget") r = false)
    /\ render_group today (mkGroup [widget_1; widget_2] 5)
       = (page_id <- getitem first "id" ;;
          properties <- getitem first "properties" ;;
          generate_item_qr today page_id properties).
Proof.
  apply (group_rendered_from_first_member [bolt; widget_1; untitled; widget_2]
           (JStr "Widget") (mkGroup [widget_1; widget_2] 5) today).
  right. left. reflexivity.
Defined.

(** ** The renderer *)

Section Titled.
Variables properties item_property first text : json.
Variable rest : list json.
Variable name : string.
Hypothesis has_item : getitem properties "Item" = Ok item_property.
Hypothesis has_title : getitem item_property "title" = Ok (JList (first :: rest)).
Hypothesis has_text : getitem first "text" = Ok text.
Hypothesis has_content : getitem text "content" = Ok (JStr name).

Lemma title_content_first : title_content properties = Ok (JStr name).
Proof.
  unfold title_content. rewrite has_item. simpl. rewrite has_title. simpl.
  rewrite has_text. simpl. exact has_content.
Qed.

Lemma generate_item_qr_titled (now : DateTime) (page_id : json) :
  generate_item_qr now page_id properties
  = (url <- notion_url page_id ;;
     Ok (mkArtifact url
           (rstrip (filter_string keep_char name)
            ++ "_" ++ strftime_Ymd now ++ ".png")%string)).
Proof.
  unfold generate_item_qr.
  assert (Hc : contains_item properties = Ok true).
  { destruct properties as [| | | | |d]; try discriminate has_item.
    unfold getitem in has_item. simpl.
    destruct (lookup "Item" d); [reflexivity|discriminate]. }
  rewrite Hc. cbn [bind]. rewrite has_item. cbn [bind].
  rewrite has_title. cbn [bind truthy negb].
  rewrite title_content_first. cbn [bind].
  destruct (notion_url page_id); reflexivity.
Qed.
End Titled.


Lemma keep_char_ascii (c : ascii) :
  (code c <? 128)%N = true -> keep_char c = claimed_char c.
Proof.
  destruct c as [[] [] [] [] [] [] [] []]; vm_compute;
    intros H; try reflexivity; discriminate H.
Qed.

Lemma filter_keep_char_ascii (s : string) :
  all_ascii s = true ->
  filter_string keep_char s = filter_string claimed_char s.
Proof.
  induction s as [|c s IH]; simpl; intros H.
  - reflexivity.
  - apply andb_prop in H. destruct H as [Hc Hs].
    rewrite (keep_char_ascii c Hc), (IH Hs). reflexivity.
Qed.

(** C8, as the code has it.  For every item name (the text content of the
    first title fragment) and record id, the artifact's file name is the
    item name reduced to the characters that [str.isalnum] accepts or that
    are a space, a hyphen or an underscore, trailing white space trimmed,
    followed by an underscore, the date as eight digits and [.png]; the
    encoded URL is the fixed base followed by the id without its hyphens.
    On ASCII characters the kept class is [[A-Za-z0-9 _-]], so for an ASCII
    item name the file name is the one the specification describes. *)
Theorem generate_item_qr_artifact (now : DateTime) (id name : string)
  (properties item_property first text : json) (rest : list json) :
  getitem properties "Item" = Ok item_property ->
  getitem item_property "title" = Ok (JList (first :: rest)) ->
  getitem first "text" = Ok text ->
  getitem text "content" = Ok (JStr name) ->
  generate_item_qr now (JStr id) properties
  = Ok (mkArtifact
          (base_url ++ remove_hyphens id)%string
          (rstrip (filter_string keep_char name)
           ++ "_" ++ strftime_Ymd now ++ ".png")%string)
  /\ String.length (strftime_Ymd now) = 8
  /\ (forall c, (code c <? 128)%N = true -> keep_char c = claimed_char c)
  /\ (all_ascii name = true ->
      generate_item_qr now (JStr id) properties
      = Ok (mkArtifact (base_url ++ remove_hyphens id)%string
                       (claimed_filename now name))).
Proof.
  intros Hi Ht Hx Hc.
  pose proof (generate_item_qr_titled properties item_property first text
                rest name Hi Ht Hx Hc now (JStr id)) as H.
  simpl in H.
  split; [exact H|]. split; [reflexivity|]. split; [exact keep_char_ascii|].
  intros Ha. rewrite H. unfold claimed_filename.
  rewrite (filter_keep_char_ascii name Ha). reflexivity.
Qed.

Lemma generate_item_qr_artifact_witness :
  generate_item_qr today (JStr "0a1b-2c3d-4e5f")
    (JDict [("Item", title_property ["M8 bolt/zinc! "; "x"])])
  = Ok (mkArtifact "https://www.notion.so/0a1b2c3d4e5f"
                   "M8 boltzinc_20261104.png").
Proof.
  destruct (generate_item_qr_artifact today "0a1b-2c3d-4e5f" "M8 bolt/zinc! "
              (JDict [("Item", title_property ["M8 bolt/zinc! "; "x"])])
              (title_property ["M8 bolt/zinc! "; "x"])
              (fragment "M8 bolt/zinc! ")
              (JDict [("content", JStr "M8 bolt/zinc! ")])
              [fragment "x"]
              eq_refl eq_refl eq_refl eq_refl) as [H _].
  exact H.
Defined.

(** The letter U+00E9 is not in [[A-Za-z0-9 _-]], and the renderer keeps
    it: the file name of the item [cafe] is not the one the class
    gives. *)
Lemma filename_keeps_accented_letter :
  generate_item_qr today (JStr "abc-9") (JDict [("Item", title_property [cafe])])
  <> Ok (mkArtifact "https://www.notion.so/abc9" (claimed_filename today cafe))
  /\ generate_item_qr today (JStr "abc-9")
       (JDict [("Item", title_property [cafe])])
     = Ok (mkArtifact "https://www.notion.so/abc9"
                      (cafe ++ "_20261104.png")%string)
  /\ claimed_filename today cafe = "Caf_20261104.png"
  /\ claimed_char e_acute = false.
Proof.
  split; [|split; [|split]].
  - vm_compute. intros H. discriminate H.
  - vm_compute. reflexivity.
  - vm_compute. reflexivity.
  - vm_compute. reflexivity.
Qed.



(** ** The quantity *)

Lemma quantity_of_without_quantity (item : json) (props : list (string * json)) :
  getitem item "properties" = Ok (JDict props) ->
  lookup "Quantity" props = None ->
  quantity_of item = Ok None.
Proof.
  intros Hp Hq. unfold quantity_of. rewrite Hp. simpl. rewrite Hq. reflexivity.
Qed.

Lemma quantity_of_without_fragments (item quantity : json)
  (props : list (string * json)) :
  getitem item "properties" = Ok (JDict props) ->
  lookup "Quantity" props = Some quantity ->
  getitem quantity "rich_text" = Ok (JList []) ->
  quantity_of item = Ok None.
Proof.
  intros Hp Hq Hr. unfold quantity_of. rewrite Hp. simpl. rewrite Hq.
  destruct quantity as [| | | | |d]; try discriminate Hr.
  unfold getitem in Hr. simpl.
  destruct (lookup "rich_text" d) as [v|]; [|discriminate].
  injection Hr as ->. reflexivity.
Qed.

Lemma process_item_total (g : Groups) (item name : json) (d : ItemGroup) :
  item_name_of item = Ok name -> hashable name = true ->
  group_find name g = Some d ->
  exists d', group_find name (process_item g item) = Some d'
             /\ total_quantity d' = (total_quantity d + quantity_increment item)%Z.
Proof.
  intros En Hh Hf. unfold process_item, quantity_increment.
  rewrite En, Hh, Hf.
  destruct (quantity_of item) as [[qty|]|e];
    [| |destruct (caught_inner e)];
    rewrite ?group_find_update, (key_eqb_refl name Hh), Hf;
    eexists; (split; [reflexivity|]); simpl; lia.
Qed.

(** C1, on the code.  A record whose [Quantity] text is [5] adds 5 and one
    whose text is not a number adds 1; a record with no [Quantity] property,
    or with an empty fragment list, adds 0: the [except] clause that adds 1
    is not reached, because [.get] supplies defaults and the [if] skips an
    empty list. *)
Theorem quantity_fallback_not_reached :
  group_total "Bolt" [bolt_five] = Some 5%Z
  /\ group_total "Bolt" [bolt_lots] = Some 1%Z
  /\ group_total "Bolt" [bolt] = Some 0%Z
  /\ group_total "Bolt" [bolt_empty_quantity] = Some 0%Z
  /\ quantity_increment bolt = 0%Z
  /\ quantity_increment bolt_empty_quantity = 0%Z.
Proof. repeat split; vm_compute; reflexivity. Qed.

(** ** Examples *)

Example group_by_name_three_records :
  option_map (fun d => length (items d))
    (group_find (JStr "Widget") (group_by_name [widget_1; widget_2; bolt])) = Some 2
  /\ option_map (fun d => length (items d))
       (group_find (JStr "Bolt") (group_by_name [widget_1; widget_2; bolt])) = Some 1
  /\ length (group_by_name [widget_1; widget_2; bolt]) = 2.
Proof. repeat split; vm_compute; reflexivity. Qed.

Example group_by_name_no_normalization :
  map fst (group_by_name [bolt; bolt_lower; bolt_spaced])
  = [JStr "Bolt"; JStr "bolt"; JStr "Bolt "].
Proof. vm_compute. reflexivity. Qed.

Example generate_all_qrs_end_to_end :
  generate_all_qrs (Ok JNull) (fun _ _ => Ok (mkPage [bolt] false None)) today 1
  = Some (Ok (mkRun [bolt]
                    [(JStr "Bolt", mkGroup [bolt] 0)]
                    [mkArtifact "https://www.notion.so/abc1" "Bolt_20261104.png"])).
Proof. vm_compute. reflexivity. Qed.

(** * Further properties of the code *)

(** ** The flattener, property by property *)

Lemma flatten_into_ok (props out acc : list (string * json)) :
  Forall2 (fun e e' => fst e = fst e' /\ flatten_property (snd e) = Ok (snd e'))
          props out ->
  NoDup (map fst acc ++ map fst props) ->
  flatten_into acc props = Ok (acc ++ out).
Proof.
  intros H. revert acc.
  induction H as [|[k p] [k' v] props out [Hk Hv] _ IH]; intros acc Hnd; simpl.
  - rewrite app_nil_r. reflexivity.
  - simpl in Hk, Hv. subst k'. rewrite Hv. simpl.
    assert (Hfresh : ~ In k (map fst acc)).
    { intros Hin. apply NoDup_remove_2 in Hnd. apply Hnd.
      apply in_or_app. left. exact Hin. }
    rewrite dict_set_fresh by exact Hfresh.
    rewrite IH.
    + rewrite <- app_assoc. reflexivity.
    + rewrite map_app. simpl. rewrite <- app_assoc. exact Hnd.
Qed.

Lemma flatten_into_inv (props acc out : list (string * json)) :
  flatten_into acc props = Ok out ->
  NoDup (map fst acc ++ map fst props) ->
  exists out',
    out = acc ++ out'
    /\ Forall2 (fun e e' => fst e = fst e' /\ flatten_property (snd e) = Ok (snd e'))
               props out'.
Proof.
  revert acc. induction props as [|[k p] props IH]; simpl; intros acc H Hnd.
  - injection H as <-. exists []. rewrite app_nil_r. split; constructor.
  - destruct (flatten_property p) as [v|e] eqn:Ep; simpl in H; [|discriminate].
    assert (Hfresh : ~ In k (map fst acc)).
    { intros Hin. apply NoDup_remove_2 in Hnd. apply Hnd.
      apply in_or_app. left. exact Hin. }
    rewrite dict_set_fresh in H by exact Hfresh.
    destruct (IH _ H) as [out' [-> Hall]].
    + rewrite map_app. simpl. rewrite <- app_assoc. exact Hnd.
    + exists ((k, v) :: out'). split.
      * rewrite <- app_assoc. reflexivity.
      * constructor; [split; [reflexivity|exact Ep]|exact Hall].
Qed.

(** X1.  On a property bag with distinct names the flattener works name by
    name: it succeeds exactly when every property flattens, and its result
    then has the same names in the same order, each with the flattened value
    of its property. *)
Theorem flatten_properties_pointwise (props flat : list (string * json)) :
  NoDup (map fst props) ->
  (flatten_properties props = Ok flat
   <-> Forall2 (fun e e' =>
                  fst e = fst e' /\ flatten_property (snd e) = Ok (snd e'))
               props flat).
Proof.
  intros Hnd. unfold flatten_properties. split.
  - intros H. destruct (flatten_into_inv props [] flat H Hnd) as [out' [-> Hall]].
    exact Hall.
  - intros H. rewrite (flatten_into_ok props flat [] H Hnd). reflexivity.
Qed.

Lemma flatten_properties_pointwise_witness :
  NoDup (map fst sample_bag)
  /\ (flatten_properties sample_bag
      = Ok [("Item", JStr "Widget"); ("Notes", JStr ""); ("Count", JNum 3)]
      <-> Forall2 (fun e e' =>
                     fst e = fst e' /\ flatten_property (snd e) = Ok (snd e'))
                  sample_bag
                  [("Item", JStr "Widget"); ("Notes", JStr ""); ("Count", JNum 3)]).
Proof.
  assert (H : NoDup (map fst sample_bag)).
  { simpl. repeat constructor; simpl; intuition discriminate. }
  split; [exact H|].
  apply (flatten_properties_pointwise sample_bag _ H).
Defined.

(** X2.  A property whose payload is not stored under the name of its kind
    is refused with [KeyError], whatever the kind. *)
Theorem flatten_property_missing_payload (prop_data : json) (kind : string) :
  getitem prop_data "type" = Ok (JStr kind) ->
  getitem prop_data kind = Raise KeyError ->
  flatten_property prop_data = Raise KeyError.
Proof.
  intros Ht Hp. unfold flatten_property. rewrite Ht. simpl.
  destruct (String.eqb_spec kind "title") as [->|_].
  - rewrite Hp. reflexivity.
  - destruct (String.eqb_spec kind "rich_text") as [->|_].
    + rewrite Hp. reflexivity.
    + destruct prop_data; try discriminate Ht. simpl. exact Hp.
Qed.

Lemma flatten_property_missing_payload_witness :
  flatten_property (JDict [("id", JStr "x"); ("type", JStr "select")])
  = Raise KeyError
  /\ flatten_property (JDict [("type", JStr "title"); ("rich_text", JList [])])
     = Raise KeyError.
Proof.
  split.
  - apply (flatten_property_missing_payload _ "select"); reflexivity.
  - apply (flatten_property_missing_payload _ "title"); reflexivity.
Defined.

Lemma flatten_into_raises (props acc : list (string * json)) (k : string)
  (p : json) (e : exn) :
  In (k, p) props -> flatten_property p = Raise e ->
  exists e', flatten_into acc props = Raise e'.
Proof.
  revert acc. induction props as [|[k0 p0] props IH]; simpl; intros acc Hin Hp.
  - contradiction.
  - destruct Hin as [E|Hin].
    + injection E as -> ->. rewrite Hp. eexists. reflexivity.
    + destruct (flatten_property p0) as [v|e0]; simpl.
      * apply IH; assumption.
      * eexists. reflexivity.
Qed.

Lemma mapM_raises {A B : Type} (f : A -> result B) (l : list A) (a : A) (e : exn) :
  In a l -> f a = Raise e -> exists e', mapM f l = Raise e'.
Proof.
  induction l as [|x l IH]; simpl; intros Hin Ha.
  - contradiction.
  - destruct Hin as [->|Hin].
    + rewrite Ha. eexists. reflexivity.
    + destruct (f x) as [b|e0]; simpl; [|eexists; reflexivity].
      destruct (IH Hin Ha) as [e' ->]. eexists. reflexivity.
Qed.

Lemma mapM_inv {A B : Type} (f : A -> result B) (l : list A) (l' : list B) :
  mapM f l = Ok l' -> Forall2 (fun a b => f a = Ok b) l l'.
Proof.
  revert l'. induction l as [|a l IH]; simpl; intros l' H.
  - injection H as <-. constructor.
  - destruct (f a) as [b|e] eqn:Ea; simpl in H; [|discriminate].
    destruct (mapM f l) as [bs|e]; simpl in H; [|discriminate].
    injection H as <-. constructor; [exact Ea|apply IH; reflexivity].
Qed.

(** X3.  One property that does not flatten spoils its page: if any
    property of a page raises in the flattener, [format_page] raises for the
    whole page. *)
Theorem format_page_one_bad_property (page : json) (props : list (string * json))
  (k : string) (p : json) (e : exn) :
  getitem page "properties" = Ok (JDict props) ->
  In (k, p) props ->
  flatten_property p = Raise e ->
  exists e', format_page page = Raise e'.
Proof.
  intros Hp Hin He. unfold format_page.
  destruct (getitem page "id"); simpl; [|eexists; reflexivity].
  destruct (getitem page "url"); simpl; [|eexists; reflexivity].
  destruct (getitem page "created_time"); simpl; [|eexists; reflexivity].
  destruct (getitem page "last_edited_time"); simpl; [|eexists; reflexivity].
  rewrite Hp. simpl. unfold flatten_properties.
  destruct (flatten_into_raises props [] k p e Hin He) as [e' ->].
  eexists. reflexivity.
Qed.

Lemma format_page_one_bad_property_witness :
  exists e',
    format_page (record "abc-1" [("Item", title_property ["Bolt"]);
                                 ("Tag", JDict [("type", JStr "select")])])
    = Raise e'.
Proof.
  apply (format_page_one_bad_property _
           [("Item", title_property ["Bolt"]);
            ("Tag", JDict [("type", JStr "select")])]
           "Tag" (JDict [("type", JStr "select")]) KeyError).
  - reflexivity.
  - right. left. reflexivity.
  - reflexivity.
Defined.

(** X4.  [test_database_access] is all or nothing: when one page of the
    remote answer cannot be formatted, the whole request ends in an
    [HTTPException] of status 500 and no page is returned. *)
Theorem test_database_access_one_bad_page (remote : Remote) (n : nat)
  (pagination : PaginationParams) (response : Page) (page : json) (e : exn) :
  remote n (mkQuery false (start_cursor pagination)
              (Z.min (page_size pagination) 100)) = Ok response ->
  In page (results response) ->
  format_page page = Raise e ->
  exists cause,
    test_database_access remote n pagination = Raise (HTTPException 500 cause).
Proof.
  intros Hr Hin He. unfold test_database_access. rewrite Hr. simpl.
  destruct (mapM_raises format_page (results response) page e Hin He) as [e' ->].
  simpl. eexists. reflexivity.
Qed.

Lemma test_database_access_one_bad_page_witness :
  exists cause,
    test_database_access
      (fun _ _ => Ok (mkPage [record "abc-1" sample_bag; JDict [("id", JStr "x")]]
                             false None))
      0 (mkPagination None 10)
    = Raise (HTTPException 500 cause).
Proof.
  apply (test_database_access_one_bad_page _ 0 (mkPagination None 10)
           (mkPage [record "abc-1" sample_bag; JDict [("id", JStr "x")]] false None)
           (JDict [("id", JStr "x")]) KeyError).
  - reflexivity.
  - right. left. reflexivity.
  - reflexivity.
Defined.

Lemma test_database_access_inv (remote : Remote) (n : nat)
  (pagination : PaginationParams) (r : FormattedResponse) :
  test_database_access remote n pagination = Ok r ->
  exists response,
    remote n (mkQuery false (start_cursor pagination)
                (Z.min (page_size pagination) 100)) = Ok response
    /\ f_has_more r = has_more response
    /\ f_next_cursor r = next_cursor response
    /\ Forall2 (fun page out => format_page page = Ok out)
               (results response) (f_results r).
Proof.
  unfold test_database_access.
  destruct (remote n _) as [response|e]; simpl; [|discriminate].
  destruct (mapM format_page (results response)) as [pages|e] eqn:Em; simpl;
    [|discriminate].
  intros [= <-]. exists response. repeat split.
  apply mapM_inv. exact Em.
Qed.

(** X5.  A successful [test_database_access] returns one formatted page for
    each page of the remote answer, in the same order, and hands on the
    answer's [has_more] and [next_cursor] unchanged. *)
Theorem test_database_access_envelope (remote : Remote) (n : nat)
  (pagination : PaginationParams) (r : FormattedResponse) :
  test_database_access remote n pagination = Ok r ->
  exists response,
    remote n (mkQuery false (start_cursor pagination)
                (Z.min (page_size pagination) 100)) = Ok response
    /\ f_has_more r = has_more response
    /\ f_next_cursor r = next_cursor response
    /\ length (f_results r) = length (results response)
    /\ Forall2 (fun page out => format_page page = Ok out)
               (results response) (f_results r).
Proof.
  intros H. destruct (test_database_access_inv remote n pagination r H)
    as [response [Hr [Hm [Hc Hall]]]].
  exists response. repeat split; try assumption.
  symmetry. apply (Forall2_length Hall).
Qed.

Lemma test_database_access_envelope_witness :
  exists response,
    endless 0 (mkQuery false None (Z.min 10 100)) = Ok response
    /\ true = has_more response
    /\ Some "cursor" = next_cursor response
    /\ length [sample_formatted] = length (results response)
    /\ Forall2 (fun page out => format_page page = Ok out)
               (results response) [sample_formatted].
Proof.
  apply (test_database_access_envelope endless 0 (mkPagination None 10)
           (mkFormatted [sample_formatted] true (Some "cursor"))).
  reflexivity.
Defined.

(** X6.  The page size sent to the remote store is never above 100: a
    request for 100 or more gets the answer of a request for exactly 100,
    and a request for at most 100 is sent as it is. *)
Theorem test_database_access_clamps_page_size (remote : Remote) (n : nat)
  (c : option string) (size : Z) :
  ((100 <= size)%Z ->
   test_database_access remote n (mkPagination c size)
   = test_database_access remote n (mkPagination c 100))
  /\ ((size <= 100)%Z ->
      forall r, test_database_access remote n (mkPagination c size) = Ok r ->
        exists response, remote n (mkQuery false c size) = Ok response
                         /\ f_has_more r = has_more response).
Proof.
  split.
  - intros H. unfold test_database_access. simpl.
    rewrite (Z.min_r size 100 H). reflexivity.
  - intros H r Hr.
    destruct (test_database_access_inv remote n _ r Hr)
      as [response [Hq [Hm _]]].
    simpl in Hq. rewrite (Z.min_l size 100 H) in Hq.
    exists response. split; assumption.
Qed.

Lemma test_database_access_clamps_page_size_witness :
  test_database_access endless 0 (mkPagination None 5000)
  = test_database_access endless 0 (mkPagination None 100).
Proof.
  destruct (test_database_access_clamps_page_size endless 0 None 5000) as [H _].
  apply H. discriminate.
Defined.

(** X7.  A formatted page carries the source page's [id], [url],
    [created_time] and [last_edited_time] unchanged, and under [properties]
    the flattened bag of the page's properties. *)
Theorem format_page_fields (page out : json) :
  format_page page = Ok out ->
  getitem out "id" = getitem page "id"
  /\ getitem out "url" = getitem page "url"
  /\ getitem out "created_time" = getitem page "created_time"
  /\ getitem out "last_edited_time" = getitem page "last_edited_time"
  /\ exists props flat,
       getitem page "properties" = Ok (JDict props)
       /\ flatten_properties props = Ok flat
       /\ getitem out "properties" = Ok (JDict flat).
Proof.
  unfold format_page.
  destruct (getitem page "id") as [id|]; simpl; [|discriminate].
  destruct (getitem page "url") as [url|]; simpl; [|discriminate].
  destruct (getitem page "created_time") as [created|]; simpl; [|discriminate].
  destruct (getitem page "last_edited_time") as [edited|]; simpl; [|discriminate].
  destruct (getitem page "properties") as [raw|]; simpl; [|discriminate].
  destruct raw as [| | | | |props]; simpl; try discriminate.
  destruct (flatten_properties props) as [flat|] eqn:Ef; simpl; [|discriminate].
  intros [= <-]. repeat split.
  exists props, flat. repeat split. exact Ef.
Qed.

Lemma format_page_fields_witness :
  getitem sample_formatted "id" = getitem (record "abc-1" sample_bag) "id"
  /\ getitem sample_formatted "url" = getitem (record "abc-1" sample_bag) "url"
  /\ getitem sample_formatted "created_time"
     = getitem (record "abc-1" sample_bag) "created_time"
  /\ getitem sample_formatted "last_edited_time"
     = getitem (record "abc-1" sample_bag) "last_edited_time"
  /\ exists props flat,
       getitem (record "abc-1" sample_bag) "properties" = Ok (JDict props)
       /\ flatten_properties props = Ok flat
       /\ getitem sample_formatted "properties" = Ok (JDict flat).
Proof.
  apply (format_page_fields (record "abc-1" sample_bag) sample_formatted).
  reflexivity.
Defined.

(** X8.  A page that lacks one of the five fields [test_database_access]
    reads is refused with [KeyError]. *)
Theorem format_page_missing_field (d : list (string * json)) (field : string) :
  In field ["id"; "url"; "created_time"; "last_edited_time"; "properties"] ->
  lookup field d = None ->
  format_page (JDict d) = Raise KeyError.
Proof.
  intros Hin Hf. unfold format_page, getitem.
  destruct (lookup "id" d) eqn:E1; simpl;
    [|reflexivity].
  destruct (lookup "url" d) eqn:E2; simpl; [|reflexivity].
  destruct (lookup "created_time" d) eqn:E3; simpl; [|reflexivity].
  destruct (lookup "last_edited_time" d) eqn:E4; simpl; [|reflexivity].
  destruct (lookup "properties" d) eqn:E5; simpl; [|reflexivity].
  simpl in Hin.
  destruct Hin as [<-|[<-|[<-|[<-|[<-|[]]]]]]; congruence.
Qed.

Lemma format_page_missing_field_witness :
  format_page (JDict [("id", JStr "abc-1"); ("properties", JDict [])])
  = Raise KeyError.
Proof.
  apply (format_page_missing_field _ "url").
  - right. left. reflexivity.
  - reflexivity.
Defined.

(** ** [test_pagination]: early end, failure, size *)

Lemma test_pagination_terminates_witness :
  exists r, test_pagination endless 10 = Some r
            /\ forall report, r = Ok report -> pagination_rounds report <= 10.
Proof.
  apply (test_pagination_terminates endless 10). apply le_n.
Defined.

Section PaginationPrefix.
Variable remote : Remote.
Variable ps : nat -> Page.
Variable fl : nat -> list json.

(** Rounds [k], ..., [k + d - 1] are answered with [has_more] and leave the
    loop running in round [k + d]. *)
Lemma pagination_loop_prefix (d : nat) :
  forall (k fuel : nat) (acc : list json),
    k + d < 10 ->
    (forall i, k <= i < k + d ->
       remote i (mkQuery false (pagination_cursor ps i) 10) = Ok (ps i)
       /\ has_more (ps i) = true
       /\ mapM format_page (results (ps i)) = Ok (fl i)) ->
    d <= fuel ->
    pagination_loop remote fuel (mkState acc true (pagination_cursor ps k) k)
    = pagination_loop remote (fuel - d)
        (mkState (acc ++ concat (map fl (seq k d))) true
                 (pagination_cursor ps (k + d)) (k + d)).
Proof.
  induction d as [|d IH]; intros k fuel acc Hk H Hfuel.
  - simpl. rewrite app_nil_r, Nat.add_0_r, Nat.sub_0_r. reflexivity.
  - destruct fuel as [|fuel]; [lia|].
    destruct (H k) as [Ha [Hm Hf]]; [lia|].
    cbn [pagination_loop more cursor page_count all_pages].
    rewrite (test_database_access_ok remote k _ (ps k) (fl k) Ha Hf).
    cbn [f_results f_has_more f_next_cursor page_count].
    destruct (Nat.leb_spec 10 (S k)) as [Hge|_]; [lia|].
    rewrite Hm.
    change (next_cursor (ps k)) with (pagination_cursor ps (S k)).
    rewrite (IH (S k) fuel) by (try lia; intros i Hi; apply H; lia).
    cbn [seq map concat]. rewrite <- app_assoc.
    replace (S k + d) with (k + S d) by lia.
    reflexivity.
Qed.
End PaginationPrefix.

(** X10.  [test_pagination] ends as soon as an answer reports no more:
    when the first [k] answers report [has_more] and the next one does not,
    with [k < 10], it returns after [k + 1] rounds with the formatted pages
    of these rounds, in order. *)
Theorem test_pagination_stops_early (remote : Remote) (ps : nat -> Page)
  (fl : nat -> list json) (k fuel : nat) :
  k < 10 ->
  (forall i, i <= k ->
     remote i (mkQuery false (pagination_cursor ps i) 10) = Ok (ps i)
     /\ mapM format_page (results (ps i)) = Ok (fl i)) ->
  (forall i, i < k -> has_more (ps i) = true) ->
  has_more (ps k) = false ->
  k < fuel ->
  test_pagination remote fuel
  = Some (Ok (mkReport (length (concat (map fl (seq 0 (S k))))) (S k)
                       (concat (map fl (seq 0 (S k)))))).
Proof.
  intros Hk Ha Hm Hlast Hfuel. unfold test_pagination, initial_state.
  change (@None string) with (pagination_cursor ps 0).
  rewrite (pagination_loop_prefix remote ps fl k 0 fuel []); [|lia| |lia].
  - destruct (fuel - k) as [|fuel'] eqn:E; [lia|].
    destruct (Ha k (le_n k)) as [Hak Hfk].
    cbn [pagination_loop more cursor page_count all_pages Nat.add app].
    rewrite (test_database_access_ok remote k _ (ps k) (fl k) Hak Hfk).
    cbn [f_results f_has_more f_next_cursor page_count].
    rewrite Hlast.
    assert (Hseq : concat (map fl (seq 0 (S k)))
                   = concat (map fl (seq 0 k)) ++ fl k).
    { rewrite seq_S, map_app, concat_app. simpl. rewrite app_nil_r.
      reflexivity. }
    destruct (Nat.leb_spec 10 (S k)) as [_|_].
    + rewrite Hseq. reflexivity.
    + destruct fuel'; cbn [pagination_loop more]; rewrite Hseq; reflexivity.
  - intros i Hi. destruct (Ha i) as [H1 H2]; [lia|].
    repeat split; [exact H1|apply Hm; lia|exact H2].
Qed.

Lemma test_pagination_stops_early_witness :
  test_pagination
    (fun n _ => Ok (mkPage [record "abc-1" sample_bag] (n <? 2)%nat (Some "cursor")))
    3
  = Some (Ok (mkReport 3 3 [sample_formatted; sample_formatted; sample_formatted])).
Proof.
  apply (test_pagination_stops_early _
           (fun n => mkPage [record "abc-1" sample_bag] (n <? 2)%nat (Some "cursor"))
           (fun _ => [sample_formatted]) 2 3).
  - repeat constructor.
  - intros i _. split; reflexivity.
  - intros i Hi. simpl. apply Nat.ltb_lt. exact Hi.
  - reflexivity.
  - apply le_n.
Defined.

(** X11.  A failure in any round loses the pages of the rounds before it:
    when the first [k] answers report [has_more] and the request of round
    [k + 1] fails, [test_pagination] as a whole ends in an [HTTPException]
    of status 500. *)
Theorem test_pagination_round_failure (remote : Remote) (ps : nat -> Page)
  (fl : nat -> list json) (k fuel : nat) (e : exn) :
  k < 10 ->
  (forall i, i < k ->
     remote i (mkQuery false (pagination_cursor ps i) 10) = Ok (ps i)
     /\ has_more (ps i) = true
     /\ mapM format_page (results (ps i)) = Ok (fl i)) ->
  test_database_access remote k (mkPagination (pagination_cursor ps k) 10)
  = Raise e ->
  k < fuel ->
  test_pagination remote fuel = Some (Raise (HTTPException 500 e)).
Proof.
  intros Hk H He Hfuel. unfold test_pagination, initial_state.
  change (@None string) with (pagination_cursor ps 0).
  rewrite (pagination_loop_prefix remote ps fl k 0 fuel []); [|lia| |lia].
  - destruct (fuel - k) as [|fuel'] eqn:E; [lia|].
    cbn [pagination_loop more cursor page_count all_pages Nat.add].
    rewrite He. reflexivity.
  - intros i Hi. apply H. lia.
Qed.

Lemma test_pagination_round_failure_witness :
  test_pagination
    (fun n _ => if (n <? 2)%nat
                then Ok (mkPage [record "abc-1" sample_bag] true (Some "cursor"))
                else Raise (RemoteError "rate limited"))
    10
  = Some (Raise (HTTPException 500
                   (HTTPException 500 (RemoteError "rate limited")))).
Proof.
  apply (test_pagination_round_failure _
           (fun _ => mkPage [record "abc-1" sample_bag] true (Some "cursor"))
           (fun _ => [sample_formatted]) 2 10).
  - repeat constructor.
  - intros i Hi.
    destruct i as [|[|i]]; [repeat split; reflexivity..|].
    exfalso. apply Nat.succ_lt_mono, Nat.succ_lt_mono in Hi.
    exact (Nat.nlt_0_r i Hi).
  - reflexivity.
  - repeat constructor.
Defined.

Lemma mapM_length {A B : Type} (f : A -> result B) (l : list A) (l' : list B) :
  mapM f l = Ok l' -> length l' = length l.
Proof.
  intros H. symmetry. apply (Forall2_length (mapM_inv f l l' H)).
Qed.

Lemma pagination_loop_size (remote : Remote) :
  (forall n c p, remote n (mkQuery false c 10) = Ok p ->
     length (results p) <= 10) ->
  forall (fuel : nat) (st st' : PaginationState),
    length (all_pages st) <= 10 * page_count st ->
    page_count st <= 10 ->
    (more st = true -> page_count st < 10) ->
    pagination_loop remote fuel st = Some (Ok st') ->
    length (all_pages st') <= 10 * page_count st' /\ page_count st' <= 10.
Proof.
  intros Hsize. induction fuel as [|fuel IH]; intros st st' Hlen Hpc Hmore;
    cbn [pagination_loop]; destruct (more st) eqn:Em;
    try (intros [= <-]; split; assumption); try discriminate.
  destruct (test_database_access remote (page_count st)
              (mkPagination (cursor st) 10)) as [response|e] eqn:Et;
    [|discriminate].
  destruct (test_database_access_inv remote _ _ response Et)
    as [p [Hq [_ [_ Hall]]]].
  cbn [start_cursor page_size] in Hq. change (Z.min 10 100) with 10%Z in Hq.
  pose proof (Hsize _ _ _ Hq) as Hp.
  pose proof (Forall2_length Hall) as Hl.
  specialize (Hmore eq_refl).
  cbn [page_count].
  destruct (Nat.leb_spec 10 (S (page_count st))) as [Hge|Hlt].
  - intros [= <-]. cbn [all_pages page_count].
    rewrite length_app. split; lia.
  - apply IH; cbn [all_pages page_count more]; try rewrite length_app; lia.
Qed.

(** X12.  When the remote store answers a query of page size 10 with at
    most ten records, [test_pagination] returns at most 100 pages, as many
    as it reports in [total_pages_fetched]. *)
Theorem test_pagination_at_most_100 (remote : Remote) (fuel : nat)
  (report : PaginationReport) :
  (forall n c p, remote n (mkQuery false c 10) = Ok p ->
     length (results p) <= 10) ->
  test_pagination remote fuel = Some (Ok report) ->
  total_pages_fetched report <= 100
  /\ length (pages report) = total_pages_fetched report
  /\ pagination_rounds report <= 10.
Proof.
  intros Hsize. unfold test_pagination.
  destruct (pagination_loop remote fuel initial_state) as [[st|e]|] eqn:El;
    try discriminate.
  intros [= <-]. cbn [total_pages_fetched pages pagination_rounds].
  destruct (pagination_loop_size remote Hsize fuel initial_state st)
    as [H1 H2]; simpl; try lia; try exact El.
Qed.

Lemma test_pagination_at_most_100_witness :
  total_pages_fetched (mkReport 10 10 (repeat sample_formatted 10)) <= 100
  /\ length (pages (mkReport 10 10 (repeat sample_formatted 10)))
     = total_pages_fetched (mkReport 10 10 (repeat sample_formatted 10))
  /\ pagination_rounds (mkReport 10 10 (repeat sample_formatted 10)) <= 10.
Proof.
  apply (test_pagination_at_most_100 endless 10).
  - intros n c p [= <-]. simpl. repeat constructor.
  - reflexivity.
Defined.

(** ** The query loop of [generate_all_qrs]: failure and lost cursor *)

Section QueryPrefix.
Variable remote : Remote.
Variable ps : nat -> Page.

Lemma query_loop_prefix (d : nat) :
  forall (n fuel : nat) (acc : list json),
    (forall i, n <= i < n + d ->
       batch_response remote i = Ok (ps i) /\ has_more (ps i) = true) ->
    d <= fuel ->
    query_loop remote fuel n acc (batch_cursor remote n)
    = query_loop remote (fuel - d) (n + d)
        (acc ++ concat (map (fun i => results (ps i)) (seq n d)))
        (batch_cursor remote (n + d)).
Proof.
  induction d as [|d IH]; intros n fuel acc H Hfuel.
  - simpl. rewrite app_nil_r, Nat.add_0_r, Nat.sub_0_r. reflexivity.
  - destruct fuel as [|fuel]; [lia|].
    destruct (H n) as [Hr Hm]; [lia|].
    pose proof Hr as Hr'. unfold batch_response in Hr'.
    cbn [query_loop]. rewrite Hr', Hm. cbn [negb].
    rewrite <- (batch_cursor_step remote n (ps n) Hr).
    rewrite (IH (S n) fuel) by (try lia; intros i Hi; apply H; lia).
    cbn [seq map concat]. rewrite <- app_assoc.
    replace (S n + d) with (n + S d) by lia.
    reflexivity.
Qed.
End QueryPrefix.

(** X13.  A failure of the remote store in any round ends the batch run
    with that exception: the records of the earlier rounds are dropped, no
    group is built and nothing is rendered. *)
Theorem generate_all_qrs_query_failure (schema : json) (remote : Remote)
  (ps : nat -> Page) (now : DateTime) (k fuel : nat) (e : exn) :
  (forall i, i < k ->
     batch_response remote i = Ok (ps i) /\ has_more (ps i) = true) ->
  batch_response remote k = Raise e ->
  k < fuel ->
  query_loop remote fuel 0 [] None = Some (Raise e)
  /\ generate_all_qrs (Ok schema) remote now fuel = Some (Raise e).
Proof.
  intros H He Hfuel.
  assert (Hq : query_loop remote fuel 0 [] None = Some (Raise e)).
  { change (@None string) with (batch_cursor remote 0).
    rewrite (query_loop_prefix remote ps k 0 fuel []);
      [|intros i Hi; apply H; lia|lia].
    destruct (fuel - k) as [|fuel'] eqn:E; [lia|].
    cbn [query_loop Nat.add]. unfold batch_response in He. rewrite He.
    reflexivity. }
  split; [exact Hq|].
  unfold generate_all_qrs. rewrite Hq. reflexivity.
Qed.

Lemma generate_all_qrs_query_failure_witness :
  generate_all_qrs (Ok JNull)
    (fun n _ => if (n <? 2)%nat
                then Ok (mkPage [bolt] true (Some "cursor"))
                else Raise (RemoteError "rate limited"))
    today 5
  = Some (Raise (RemoteError "rate limited")).
Proof.
  apply (generate_all_qrs_query_failure JNull _
           (fun _ => mkPage [bolt] true (Some "cursor")) today 2 5).
  - intros i Hi.
    destruct i as [|[|i]]; [split; reflexivity..|].
    exfalso. apply Nat.succ_lt_mono, Nat.succ_lt_mono in Hi.
    exact (Nat.nlt_0_r i Hi).
  - reflexivity.
  - repeat constructor.
Defined.

Lemma query_loop_same_query (remote : Remote) (p : Page) :
  (forall n, remote n (batch_query None) = Ok p) ->
  has_more p = true ->
  next_cursor p = None \/ next_cursor p = Some "" ->
  forall (fuel n : nat) (acc : list json) (c : option string),
    c = None \/ c = Some "" ->
    query_loop remote fuel n acc c = None.
Proof.
  intros Hr Hm Hc. induction fuel as [|fuel IH]; intros n acc c Hcur.
  - reflexivity.
  - cbn [query_loop].
    assert (Hq : batch_query c = batch_query None)
      by (destruct Hcur as [->| ->]; reflexivity).
    rewrite Hq, Hr, Hm. cbn [negb]. apply IH. exact Hc.
Qed.

(** X14.  The loop sends no cursor when the one it holds is [None] or
    empty.  So when the remote store answers the cursorless query with
    [has_more] true and no usable [next_cursor], every round repeats the first
    query and the loop does not end. *)
Theorem query_loop_lost_cursor (remote : Remote) (p : Page) (fuel : nat) :
  (forall n, remote n (batch_query None) = Ok p) ->
  has_more p = true ->
  next_cursor p = None \/ next_cursor p = Some "" ->
  query_loop remote fuel 0 [] None = None.
Proof.
  intros Hr Hm Hc.
  apply (query_loop_same_query remote p Hr Hm Hc). left. reflexivity.
Qed.

Lemma query_loop_lost_cursor_witness :
  query_loop (fun _ _ => Ok (mkPage [bolt] true (Some ""))) 50 0 [] None = None.
Proof.
  apply (query_loop_lost_cursor _ (mkPage [bolt] true (Some "")) 50).
  - intros n. reflexivity.
  - reflexivity.
  - right. reflexivity.
Defined.

(** ** The grouping pass: members and totals *)

Lemma group_update_compose (k : json) (f f' : ItemGroup -> ItemGroup) (g : Groups) :
  group_update k f (group_update k f' g) = group_update k (fun d => f (f' d)) g.
Proof.
  induction g as [|[k0 d0] g IH]; simpl.
  - reflexivity.
  - destruct (key_eqb k k0) eqn:E; simpl; rewrite E.
    + reflexivity.
    + rewrite IH. reflexivity.
Qed.

Lemma group_update_ext (k : json) (f f' : ItemGroup -> ItemGroup) (g : Groups) :
  (forall d, f d = f' d) -> group_update k f g = group_update k f' g.
Proof.
  intros H. induction g as [|[k0 d0] g IH]; simpl.
  - reflexivity.
  - destruct (key_eqb k k0); [rewrite H|rewrite IH]; reflexivity.
Qed.

Lemma process_item_accepts (g : Groups) (item name : json) :
  item_name_of item = Ok name -> hashable name = true ->
  process_item g item
  = group_update name
      (fun d => mkGroup (items d ++ [item])
                        (total_quantity d + quantity_increment item))
      (match group_find name g with
       | Some _ => g
       | None => g ++ [(name, mkGroup [] 0)]
       end).
Proof.
  intros En Hh. unfold process_item, quantity_increment. rewrite En, Hh.
  destruct (quantity_of item) as [[qty|]|e];
    [| |destruct (caught_inner e)];
    rewrite ?group_update_compose; apply group_update_ext; intros d;
    unfold add_quantity, add_member; simpl;
    rewrite ?Z.add_0_r; reflexivity.
Qed.

Lemma process_item_rejects (g : Groups) (item : json) :
  accepted item = false -> process_item g item = g.
Proof.
  unfold accepted, process_item.
  destruct (item_name_of item) as [name|e]; [|reflexivity].
  intros ->. reflexivity.
Qed.

Lemma created_found (g : Groups) (name : json) :
  hashable name = true ->
  group_find name (match group_find name g with
                   | Some _ => g
                   | None => g ++ [(name, mkGroup [] 0)]
                   end) <> None.
Proof.
  intros Hh. destruct (group_find name g) eqn:E.
  - rewrite E. discriminate.
  - rewrite group_find_app, E, (key_eqb_refl name Hh). discriminate.
Qed.

Lemma members_created (g : Groups) (name : json) :
  members (match group_find name g with
           | Some _ => g
           | None => g ++ [(name, mkGroup [] 0)]
           end) = members g.
Proof.
  destruct (group_find name g); [reflexivity|].
  unfold members. rewrite map_app, concat_app. simpl. rewrite app_nil_r.
  reflexivity.
Qed.

Lemma members_update (k : json) (item : json) (q : Z) (g : Groups) :
  group_find k g <> None ->
  Permutation
    (members (group_update k
                (fun d => mkGroup (items d ++ [item]) (total_quantity d + q)) g))
    (item :: members g).
Proof.
  unfold members. induction g as [|[k0 d0] g IH]; simpl; intros H.
  - contradiction.
  - destruct (key_eqb k k0) eqn:E; simpl.
    + rewrite <- app_assoc. simpl. symmetry. apply Permutation_middle.
    + apply Permutation_trans with (items d0 ++ item :: concat (map (fun e => items (snd e)) g)).
      * apply Permutation_app_head. apply IH. exact H.
      * symmetry. apply Permutation_middle.
Qed.

Lemma members_process_item (g : Groups) (item : json) :
  Permutation (members (process_item g item))
              (if accepted item then item :: members g else members g).
Proof.
  destruct (accepted item) eqn:Ea.
  - unfold accepted in Ea.
    destruct (item_name_of item) as [name|e] eqn:En; [|discriminate].
    rewrite (process_item_accepts g item name En Ea).
    rewrite <- (members_created g name).
    apply members_update. apply created_found. exact Ea.
  - rewrite (process_item_rejects g item Ea). apply Permutation_refl.
Qed.

Lemma members_fold (rs : list json) :
  forall g, Permutation (members (fold_left process_item rs g))
                        (members g ++ filter accepted rs).
Proof.
  induction rs as [|item rs IH]; intros g; simpl.
  - rewrite app_nil_r. apply Permutation_refl.
  - eapply Permutation_trans; [apply IH|].
    eapply Permutation_trans;
      [apply Permutation_app_tail; apply members_process_item|].
    destruct (accepted item).
    + simpl. apply Permutation_middle.
    + apply Permutation_refl.
Qed.

(** X15.  The grouping pass neither loses nor duplicates a record: the
    members of all the groups together are, up to order, exactly the records
    whose name could be extracted and used as a key. *)
Theorem group_by_name_partitions (all_results : list json) :
  Permutation (members (group_by_name all_results))
              (filter accepted all_results).
Proof.
  unfold group_by_name. apply (members_fold all_results []).
Qed.

Lemma In_group_update (k name : json) (f : ItemGroup -> ItemGroup)
  (d' : ItemGroup) (g : Groups) :
  In (k, d') (group_update name f g) ->
  exists d, In (k, d) g /\ (d' = d \/ d' = f d).
Proof.
  induction g as [|[k0 d0] g IH]; simpl; intros H.
  - contradiction.
  - destruct (key_eqb name k0); simpl in H.
    + destruct H as [E|H].
      * injection E as <- <-. exists d0. auto.
      * exists d'. auto.
    + destruct H as [E|H].
      * injection E as <- <-. exists d0. auto.
      * destruct (IH H) as [d [Hin Hd]]. exists d. auto.
Qed.

Lemma zsum_snoc (f : json -> Z) (l : list json) (x : json) :
  zsum (map f (l ++ [x])) = (zsum (map f l) + f x)%Z.
Proof.
  unfold zsum. induction l as [|y l IH]; simpl.
  - lia.
  - rewrite IH. lia.
Qed.

Lemma totals_step (g : Groups) (item : json) :
  (forall k d, In (k, d) g ->
     total_quantity d = zsum (map quantity_increment (items d))) ->
  forall k d, In (k, d) (process_item g item) ->
    total_quantity d = zsum (map quantity_increment (items d)).
Proof.
  intros Hg k d Hin.
  destruct (accepted item) eqn:Ea.
  - unfold accepted in Ea.
    destruct (item_name_of item) as [name|e] eqn:En; [|discriminate].
    rewrite (process_item_accepts g item name En Ea) in Hin.
    apply In_group_update in Hin. destruct Hin as [d0 [Hin Hd]].
    assert (H0 : total_quantity d0 = zsum (map quantity_increment (items d0))).
    { destruct (group_find name g); [apply (Hg k); exact Hin|].
      apply in_app_or in Hin. destruct Hin as [Hin|[E|[]]].
      - apply (Hg k). exact Hin.
      - injection E as <- <-. reflexivity. }
    destruct Hd as [->| ->]; [exact H0|].
    cbn [items total_quantity]. rewrite zsum_snoc, H0. reflexivity.
  - rewrite (process_item_rejects g item Ea) in Hin. apply (Hg k). exact Hin.
Qed.

Lemma totals_fold (rs : list json) :
  forall g,
    (forall k d, In (k, d) g ->
       total_quantity d = zsum (map quantity_increment (items d))) ->
    forall k d, In (k, d) (fold_left process_item rs g) ->
      total_quantity d = zsum (map quantity_increment (items d)).
Proof.
  induction rs as [|item rs IH]; intros g Hg; simpl.
  - exact Hg.
  - apply IH. apply totals_step. exact Hg.
Qed.

(** X16.  The [total_quantity] of every group is the sum, over its members,
    of what each member adds: its quantity when the [+= qty] is reached, 1
    when the inner [except] is, and 0 otherwise. *)
Theorem group_total_is_sum (all_results : list json) (k : json) (d : ItemGroup) :
  In (k, d) (group_by_name all_results) ->
  total_quantity d = zsum (map quantity_increment (items d)).
Proof.
  unfold group_by_name. apply (totals_fold all_results []).
  intros k' d' [].
Qed.

Lemma group_total_is_sum_witness :
  (11 = zsum (map quantity_increment
                  [bolt_five; bolt; bolt_lots; bolt_empty_quantity; bolt_five]))%Z.
Proof.
  apply (group_total_is_sum
           [bolt_five; widget_1; bolt; bolt_lots; bolt_empty_quantity; bolt_five]
           (JStr "Bolt")
           (mkGroup [bolt_five; bolt; bolt_lots; bolt_empty_quantity; bolt_five] 11)).
  vm_compute. left. reflexivity.
Defined.

(** X17.  Distinct keys: two entries of [items_by_name] whose keys are
    equal as dictionary keys are one and the same group. *)
Theorem group_by_name_one_group_per_key (all_results : list json)
  (k1 k2 : json) (d1 d2 : ItemGroup) :
  In (k1, d1) (group_by_name all_results) ->
  In (k2, d2) (group_by_name all_results) ->
  key_eqb k1 k2 = true ->
  d1 = d2.
Proof.
  intros H1 H2 E.
  destruct (group_by_name_groups_of all_results) as [Hd _].
  destruct (distinct_keys_find k1 d1 _ Hd H1) as [_ F1].
  destruct (distinct_keys_find k2 d2 _ Hd H2) as [_ F2].
  rewrite (group_find_cong k1 k2 _ E) in F1. congruence.
Qed.

Lemma group_by_name_one_group_per_key_witness :
  mkGroup [widget_1; widget_2] 5 = mkGroup [widget_1; widget_2] 5.
Proof.
  apply (group_by_name_one_group_per_key [widget_1; bolt; widget_2]
           (JStr "Widget") (JStr "Widget")).
  - left. reflexivity.
  - left. reflexivity.
  - reflexivity.
Defined.

(** ** The quantity of a record *)

Lemma dict_get_present (o v default : json) (k : string) :
  getitem o k = Ok v -> dict_get o k default = Ok v.
Proof.
  destruct o as [| | | | |d]; try discriminate.
  unfold getitem, dict_get.
  destruct (lookup k d); [intros [= ->]; reflexivity|discriminate].
Qed.

(** X18.  The quantity of a record is read from the first fragment of its
    [Quantity] text alone: when that fragment's text content is a non-empty
    string, the record adds the integer [int] reads in it, and 1 when [int]
    refuses it; later fragments are not looked at. *)
Theorem quantity_increment_first_fragment
  (item quantity first text : json) (props : list (string * json))
  (rest : list json) (s : string) :
  getitem item "properties" = Ok (JDict props) ->
  lookup "Quantity" props = Some quantity ->
  getitem quantity "rich_text" = Ok (JList (first :: rest)) ->
  getitem first "text" = Ok text ->
  getitem text "content" = Ok (JStr s) ->
  s <> "" ->
  quantity_increment item
  = match int_of_string s with
    | Some z => z
    | None => 1%Z
    end.
Proof.
  intros Hp Hq Hr Ht Hc Hs.
  unfold quantity_increment, quantity_of.
  rewrite Hp. cbn [bind dict_get]. rewrite Hq. cbn [bind].
  rewrite (dict_get_present quantity _ _ _ Hr). cbn [bind truthy getindex nth_error].
  rewrite (dict_get_present first _ _ _ Ht). cbn [bind].
  rewrite (dict_get_present text _ _ _ Hc). cbn [bind truthy].
  destruct (String.eqb_spec s "") as [E|_]; [contradiction|]. cbn [negb].
  rewrite Ht. cbn [bind]. rewrite Hc. cbn [bind py_int].
  destruct (int_of_string s); reflexivity.
Qed.

Lemma quantity_increment_first_fragment_witness :
  quantity_increment bolt_twelve = 1%Z
  /\ quantity_increment bolt_lots = 1%Z
  /\ flatten_property (rich_text_property ["1"; "2"]) = Ok (JStr "12").
Proof.
  split; [|split; [|reflexivity]].
  - apply (quantity_increment_first_fragment bolt_twelve
             (rich_text_property ["1"; "2"]) (fragment "1")
             (JDict [("content", JStr "1")])
             [("Item", title_property ["Bolt"]);
              ("Quantity", rich_text_property ["1"; "2"])]
             [fragment "2"] "1"); try reflexivity. discriminate.
  - apply (quantity_increment_first_fragment bolt_lots
             (rich_text_property ["lots"]) (fragment "lots")
             (JDict [("content", JStr "lots")])
             [("Item", title_property ["Bolt"]);
              ("Quantity", rich_text_property ["lots"])]
             [] "lots"); try reflexivity. discriminate.
Defined.

(** ** From a group to its artifact *)




Lemma group_update_length (k : json) (f : ItemGroup -> ItemGroup) (g : Groups) :
  length (group_update k f g) = length g.
Proof.
  induction g as [|[k0 d0] g IH]; simpl.
  - reflexivity.
  - destruct (key_eqb k k0); simpl; [reflexivity|rewrite IH; reflexivity].
Qed.

Lemma process_item_length (g : Groups) (item : json) :
  length (process_item g item) <= S (length g).
Proof.
  destruct (accepted item) eqn:Ea.
  - unfold accepted in Ea.
    destruct (item_name_of item) as [name|e] eqn:En; [|discriminate].
    rewrite (process_item_accepts g item name En Ea), group_update_length.
    destruct (group_find name g); [lia|].
    rewrite length_app. simpl. lia.
  - rewrite (process_item_rejects g item Ea). lia.
Qed.

Lemma fold_process_item_length (rs : list json) :
  forall g, length (fold_left process_item rs g) <= length g + length rs.
Proof.
  induction rs as [|item rs IH]; intros g; simpl.
  - lia.
  - pose proof (IH (process_item g item)).
    pose proof (process_item_length g item). lia.
Qed.

Lemma render_groups_length (now : DateTime) (g : Groups) :
  length (render_groups now g) <= length g.
Proof.
  induction g as [|[k d] g IH]; simpl.
  - lia.
  - destruct (render_group now d); simpl; lia.
Qed.

(** X20.  A finished run renders at most one artifact for each group and
    builds at most one group for each record found. *)
Theorem generate_all_qrs_counts (schema : result json) (remote : Remote)
  (now : DateTime) (fuel : nat) (run : RunReport) :
  generate_all_qrs schema remote now fuel = Some (Ok run) ->
  length (artifacts run) <= length (groups run)
  /\ length (groups run) <= length (found run).
Proof.
  unfold generate_all_qrs.
  destruct schema as [s|e]; [|discriminate].
  destruct (query_loop remote fuel 0 [] None) as [[all_results|e]|];
    try discriminate.
  intros [= <-]. cbn [artifacts groups found]. split.
  - apply render_groups_length.
  - unfold group_by_name.
    pose proof (fold_process_item_length all_results []) as H.
    simpl in H. exact H.
Qed.

Lemma generate_all_qrs_counts_witness :
  length [mkArtifact "https://www.notion.so/abc1" "Bolt_20261104.png"]
  <= length [(JStr "Bolt", mkGroup [bolt] 0)]
  /\ length [(JStr "Bolt", mkGroup [bolt] 0)] <= length [bolt].
Proof.
  apply (generate_all_qrs_counts (Ok JNull)
           (fun _ _ => Ok (mkPage [bolt] false None)) today 1
           (mkRun [bolt] [(JStr "Bolt", mkGroup [bolt] 0)]
                  [mkArtifact "https://www.notion.so/abc1" "Bolt_20261104.png"])).
  reflexivity.
Defined.

(** ** The file name *)

Lemma all_chars_filter (test : ascii -> bool) (s : string) :
  all_chars test (filter_string test s) = true.
Proof.
  induction s as [|c s IH]; simpl.
  - reflexivity.
  - destruct (test c) eqn:E; simpl; [rewrite E|]; exact IH.
Qed.

Lemma filter_string_kept (test : ascii -> bool) (s : string) :
  all_chars test s = true -> filter_string test s = s.
Proof.
  induction s as [|c s IH]; simpl; intros H.
  - reflexivity.
  - apply andb_prop in H. destruct H as [Hc Hs].
    rewrite Hc, (IH Hs). reflexivity.
Qed.

Lemma filter_string_app (test : ascii -> bool) (a b : string) :
  filter_string test (a ++ b)
  = (filter_string test a ++ filter_string test b)%string.
Proof.
  induction a as [|c a IH]; simpl.
  - reflexivity.
  - destruct (test c); simpl; rewrite IH; reflexivity.
Qed.

Lemma all_chars_rstrip (test : ascii -> bool) (s : string) :
  all_chars test s = true -> all_chars test (rstrip s) = true.
Proof.
  induction s as [|c s IH]; simpl; intros H.
  - reflexivity.
  - apply andb_prop in H. destruct H as [Hc Hs]. specialize (IH Hs).
    destruct (rstrip s) as [|a r].
    + destruct (isspace c); simpl; [reflexivity|rewrite Hc; reflexivity].
    + cbn [all_chars]. rewrite Hc. exact IH.
Qed.

Lemma rstrip_idempotent (s : string) : rstrip (rstrip s) = rstrip s.
Proof.
  induction s as [|c s IH]; simpl.
  - reflexivity.
  - destruct (rstrip s) as [|a r] eqn:E.
    + destruct (isspace c) eqn:Ec; simpl; [reflexivity|].
      rewrite Ec. reflexivity.
    + cbn [rstrip]. cbn [rstrip] in IH. rewrite IH. reflexivity.
Qed.

Lemma rstrip_app_space (s : string) : rstrip (s ++ " ") = rstrip s.
Proof.
  induction s as [|c s IH]; simpl.
  - reflexivity.
  - rewrite IH. reflexivity.
Qed.

(** X21.  The sanitised name of a string is in normal form: it holds only
    characters the filter keeps, it has no white space left to trim at its
    end, and sanitising it again returns it unchanged. *)
Theorem safe_filename_normal_form (name : string) :
  exists safe,
    safe_filename (JStr name) = Ok safe
    /\ all_chars keep_char safe = true
    /\ rstrip safe = safe
    /\ safe_filename (JStr safe) = Ok safe.
Proof.
  exists (rstrip (filter_string keep_char name)).
  assert (Hk : all_chars keep_char (rstrip (filter_string keep_char name)) = true)
    by (apply all_chars_rstrip, all_chars_filter).
  split; [reflexivity|]. split; [exact Hk|]. split.
  - apply rstrip_idempotent.
  - simpl. rewrite (filter_string_kept keep_char _ Hk), rstrip_idempotent.
    reflexivity.
Qed.

(** X22.  Names that differ only by characters the filter drops, or by a
    space at the end, are saved under the same file name. *)
Theorem safe_filename_collisions (a b : string) (c : ascii) :
  keep_char c = false ->
  safe_filename (JStr (a ++ String c b)) = safe_filename (JStr (a ++ b))
  /\ safe_filename (JStr (a ++ " ")) = safe_filename (JStr a).
Proof.
  intros Hc. simpl. split.
  - rewrite !filter_string_app. simpl. rewrite Hc. reflexivity.
  - rewrite filter_string_app. simpl. rewrite rstrip_app_space. reflexivity.
Qed.

Lemma safe_filename_collisions_witness :
  safe_filename (JStr "M8/bolt") = safe_filename (JStr "M8bolt")
  /\ safe_filename (JStr "M8 ") = safe_filename (JStr "M8").
Proof.
  apply (safe_filename_collisions "M8" "bolt" "/"). reflexivity.
Defined.

(** ** The guard and the id of [generate_item_qr] *)

(** X23.  On a property dictionary, [generate_item_qr] raises [ValueError]
    when there is no [Item] property and when the [Item] title is empty or
    otherwise false; when the [Item] property has no title to read, the
    guard itself raises the exception of that lookup. *)
Theorem generate_item_qr_guard (now : DateTime) (page_id : json)
  (d : list (string * json)) :
  (lookup "Item" d = None ->
   generate_item_qr now page_id (JDict d) = Raise ValueError)
  /\ (forall item_property title,
        lookup "Item" d = Some item_property ->
        getitem item_property "title" = Ok title ->
        truthy title = false ->
        generate_item_qr now page_id (JDict d) = Raise ValueError)
  /\ (forall item_property e,
        lookup "Item" d = Some item_property ->
        getitem item_property "title" = Raise e ->
        generate_item_qr now page_id (JDict d) = Raise e).
Proof.
  unfold generate_item_qr, contains_item. repeat split.
  - intros ->. reflexivity.
  - intros item_property title Hi Ht Hf.
    assert (Hg : getitem (JDict d) "Item" = Ok item_property)
      by (unfold getitem; rewrite Hi; reflexivity).
    rewrite Hi. cbn [bind]. rewrite Hg. cbn [bind]. rewrite Ht. cbn [bind].
    rewrite Hf. reflexivity.
  - intros item_property e Hi Ht.
    assert (Hg : getitem (JDict d) "Item" = Ok item_property)
      by (unfold getitem; rewrite Hi; reflexivity).
    rewrite Hi. cbn [bind]. rewrite Hg. cbn [bind]. rewrite Ht. reflexivity.
Qed.

Lemma generate_item_qr_guard_witness :
  generate_item_qr today (JStr "abc-5") (JDict [("Name", title_property ["Bolt"])])
  = Raise ValueError
  /\ generate_item_qr today (JStr "abc-4") (JDict [("Item", title_property [])])
     = Raise ValueError
  /\ generate_item_qr today (JStr "abc-4")
       (JDict [("Item", rich_text_property ["Bolt"])])
     = Raise KeyError.
Proof.
  split; [|split].
  - destruct (generate_item_qr_guard today (JStr "abc-5")
                [("Name", title_property ["Bolt"])]) as [H _].
    apply H. reflexivity.
  - destruct (generate_item_qr_guard today (JStr "abc-4")
                [("Item", title_property [])]) as [_ [H _]].
    apply (H (title_property []) (JList [])); reflexivity.
  - destruct (generate_item_qr_guard today (JStr "abc-4")
                [("Item", rich_text_property ["Bolt"])]) as [_ [_ H]].
    apply (H (rich_text_property ["Bolt"])); reflexivity.
Defined.

(** X24.  [generate_item_qr] renders nothing for an id that is not a
    string: whatever the properties, the call raises. *)
Theorem generate_item_qr_needs_string_id (now : DateTime)
  (page_id properties : json) :
  (forall s, page_id <> JStr s) ->
  exists e, generate_item_qr now page_id properties = Raise e.
Proof.
  intros Hid. unfold generate_item_qr.
  destruct (contains_item properties) as [has|]; simpl; [|eexists; reflexivity].
  destruct (if has then _ else _) as [missing|]; simpl; [|eexists; reflexivity].
  destruct missing; [eexists; reflexivity|].
  destruct (title_content properties); simpl; [|eexists; reflexivity].
  destruct page_id as [| | |s| |]; simpl; try (eexists; reflexivity).
  exfalso. apply (Hid s). reflexivity.
Qed.

Lemma generate_item_qr_needs_string_id_witness :
  exists e,
    generate_item_qr today (JNum 42) (JDict [("Item", title_property ["Bolt"])])
    = Raise e.
Proof.
  apply (generate_item_qr_needs_string_id today (JNum 42)).
  intros s. discriminate.
Defined.

(** X25.  The id part of the encoded URL holds no hyphen, and an id
    without hyphens is encoded as it is. *)
Theorem notion_url_without_hyphens (id : string) :
  exists rest,
    notion_url (JStr id) = Ok (base_url ++ rest)%string
    /\ all_chars not_hyphen rest = true
    /\ (all_chars not_hyphen id = true -> rest = id).
Proof.
  exists (remove_hyphens id). split; [reflexivity|]. split.
  - apply (all_chars_filter not_hyphen).
  - intros H. apply (filter_string_kept not_hyphen). exact H.
Qed.

(** ** [get_notion_pages] *)

Lemma raw_page_fields (page out : json) :
  raw_page page = Ok out ->
  getitem out "id" = getitem page "id"
  /\ getitem out "url" = getitem page "url"
  /\ getitem out "properties" = getitem page "properties".
Proof.
  unfold raw_page.
  destruct (getitem page "id") as [id|]; simpl; [|discriminate].
  destruct (getitem page "url") as [url|]; simpl; [|discriminate].
  destruct (getitem page "properties") as [properties|]; simpl; [|discriminate].
  intros [= <-]. repeat split.
Qed.

(** X26.  [get_notion_pages] returns one entry for each page of the answer,
    in order, with the page's [id], [url] and [properties] as they came: the
    properties are not flattened. *)
Theorem get_notion_pages_raw (response : Page) (out : list json) :
  get_notion_pages (Ok response) = Ok out ->
  Forall2 (fun page o =>
             getitem o "id" = getitem page "id"
             /\ getitem o "url" = getitem page "url"
             /\ getitem o "properties" = getitem page "properties")
          (results response) out.
Proof.
  unfold get_notion_pages. simpl.
  destruct (mapM raw_page (results response)) as [l|] eqn:E; simpl;
    [|discriminate].
  intros [= <-]. apply mapM_inv in E.
  induction E as [|page o pages l Hp _ IH]; constructor.
  - apply raw_page_fields. exact Hp.
  - exact IH.
Qed.

Lemma get_notion_pages_raw_witness :
  Forall2 (fun page o =>
             getitem o "id" = getitem page "id"
             /\ getitem o "url" = getitem page "url"
             /\ getitem o "properties" = getitem page "properties")
          [bolt]
          [JDict [("id", JStr "abc-1"); ("url", JStr "https://www.notion.so/x");
                  ("properties", JDict [("Item", title_property ["Bolt"])])]].
Proof.
  apply (get_notion_pages_raw (mkPage [bolt] false None)). reflexivity.
Defined.

(** ** [get_notion_page] *)

Lemma page_content_app (before after : list json) :
  page_content (before ++ after)
  = (c1 <- page_content before ;;
     c2 <- page_content after ;;
     Ok (c1 ++ c2)).
Proof.
  induction before as [|block before IH]; simpl.
  - destruct (page_content after); reflexivity.
  - destruct (format_block block) as [entry|]; simpl; [|reflexivity].
    rewrite IH.
    destruct (page_content before) as [c1|]; simpl; [|reflexivity].
    destruct (page_content after) as [c2|]; simpl; [|reflexivity].
    destruct entry; reflexivity.
Qed.

(** X27.  A block whose type is not one of the five text kinds leaves no
    trace: with or without it, the content list is the same, whatever the
    block holds besides its type. *)
Theorem page_content_drops_other_kinds (before after : list json)
  (block block_type : json) :
  getitem block "type" = Ok block_type ->
  in_content_kinds block_type = false ->
  page_content (before ++ block :: after) = page_content (before ++ after).
Proof.
  intros Ht Hk. rewrite !page_content_app. simpl.
  unfold format_block. rewrite Ht. simpl. rewrite Hk. simpl.
  destruct (page_content before) as [c1|]; simpl; [|reflexivity].
  destruct (page_content after); reflexivity.
Qed.

Lemma page_content_drops_other_kinds_witness :
  page_content ([paragraph_block ["a"]] ++ image_block :: [paragraph_block ["b"]])
  = page_content ([paragraph_block ["a"]] ++ [paragraph_block ["b"]]).
Proof.
  apply (page_content_drops_other_kinds _ _ image_block (JStr "image"));
    reflexivity.
Defined.

Lemma append_nil_r (s : string) : (s ++ "")%string = s.
Proof.
  induction s as [|c s IH]; simpl; [reflexivity|rewrite IH; reflexivity].
Qed.

Lemma append_assoc (a b c : string) :
  ((a ++ b) ++ c)%string = (a ++ (b ++ c))%string.
Proof.
  induction a as [|x a IH]; simpl; [reflexivity|rewrite IH; reflexivity].
Qed.

Lemma concat_cons (s : string) (l : list string) :
  String.concat "" (s :: l) = (s ++ String.concat "" l)%string.
Proof.
  destruct l as [|t l]; simpl.
  - rewrite append_nil_r. reflexivity.
  - reflexivity.
Qed.

Lemma append_plain_texts_fragments (frags : list json) (texts : list string) :
  Forall2 fragment_text frags texts ->
  forall acc,
    append_plain_texts acc frags = Ok (acc ++ String.concat "" texts)%string.
Proof.
  induction 1 as [|f s frags texts Hf _ IH]; intros acc.
  - simpl. rewrite append_nil_r. reflexivity.
  - cbn [append_plain_texts]. unfold fragment_text in Hf. rewrite Hf.
    cbn [bind as_str]. rewrite IH, concat_cons, append_assoc. reflexivity.
Qed.

(** X28.  A block of one of the five text kinds gives one content entry
    with its type and the concatenation of the plain texts of its rich-text
    runs, in order; when its payload has no [rich_text] at all, the entry
    has the empty string and nothing is raised. *)
Theorem format_block_text_kinds (block : json) (kind : string)
  (payload : list (string * json)) :
  In kind content_kinds ->
  getitem block "type" = Ok (JStr kind) ->
  getitem block kind = Ok (JDict payload) ->
  (lookup "rich_text" payload = None ->
   format_block block
   = Ok (Some (JDict [("type", JStr kind); ("content", JStr "")])))
  /\ (forall frags texts,
        lookup "rich_text" payload = Some (JList frags) ->
        Forall2 fragment_text frags texts ->
        format_block block
        = Ok (Some (JDict [("type", JStr kind);
                           ("content", JStr (String.concat "" texts))]))).
Proof.
  intros Hin Ht Hp.
  assert (Hk : in_content_kinds (JStr kind) = true).
  { unfold in_content_kinds. apply existsb_exists. exists kind.
    split; [exact Hin|]. simpl. apply String.eqb_refl. }
  assert (Hpay : match block with
                 | JDict d => getitem_val d (JStr kind)
                 | _ => Raise TypeError
                 end = Ok (JDict payload)).
  { destruct block; try discriminate Ht. exact Hp. }
  unfold format_block. rewrite Ht. cbn [bind]. rewrite Hk, Hpay. cbn [bind].
  unfold block_text, py_in. split.
  - intros ->. reflexivity.
  - intros frags texts Hr Hf. rewrite Hr. cbn [bind].
    unfold getitem at 1. rewrite Hr. cbn [bind iterate].
    rewrite (append_plain_texts_fragments frags texts Hf ""). reflexivity.
Qed.

Lemma format_block_text_kinds_witness :
  format_block (JDict [("type", JStr "heading_1"); ("heading_1", JDict [])])
  = Ok (Some (JDict [("type", JStr "heading_1"); ("content", JStr "")]))
  /\ format_block (paragraph_block ["Hello, "; "world"])
     = Ok (Some (JDict [("type", JStr "paragraph");
                        ("content", JStr "Hello, world")])).
Proof.
  split.
  - destruct (format_block_text_kinds
                (JDict [("type", JStr "heading_1"); ("heading_1", JDict [])])
                "heading_1" []
                (or_intror (or_introl eq_refl)) eq_refl eq_refl) as [H _].
    apply H. reflexivity.
  - destruct (format_block_text_kinds (paragraph_block ["Hello, "; "world"])
                "paragraph"
                [("rich_text", JList (map fragment ["Hello, "; "world"]))]
                (or_introl eq_refl) eq_refl eq_refl) as [_ H].
    apply (H (map fragment ["Hello, "; "world"]) ["Hello, "; "world"]).
    + reflexivity.
    + apply fragment_texts.
Defined.

(** ** [get_database_schema] *)

Lemma schema_types_ok (props types acc : list (string * json)) :
  Forall2 (fun e e' => fst e = fst e' /\ getitem (snd e) "type" = Ok (snd e'))
          props types ->
  NoDup (map fst acc ++ map fst props) ->
  schema_types acc props = Ok (acc ++ types).
Proof.
  intros H. revert acc.
  induction H as [|[k p] [k' t] props types [Hk Ht] _ IH]; intros acc Hnd; simpl.
  - rewrite app_nil_r. reflexivity.
  - simpl in Hk, Ht. subst k'. rewrite Ht. simpl.
    assert (Hfresh : ~ In k (map fst acc)).
    { intros Hin. apply NoDup_remove_2 in Hnd. apply Hnd.
      apply in_or_app. left. exact Hin. }
    rewrite dict_set_fresh by exact Hfresh.
    rewrite IH.
    + rewrite <- app_assoc. reflexivity.
    + rewrite map_app. simpl. rewrite <- app_assoc. exact Hnd.
Qed.

(** X29.  The schema lists every property of the database under its own
    name, in order, with the property's type.  Its name is the text content
    of the first title fragment, and [Untitled] when the title has no
    fragment; a database object without a [title] entry is not given that
    default: the lookup raises. *)
Theorem get_database_schema_shape (response : json)
  (props types : list (string * json)) :
  getitem response "properties" = Ok (JDict props) ->
  NoDup (map fst props) ->
  Forall2 (fun e e' => fst e = fst e' /\ getitem (snd e) "type" = Ok (snd e'))
          props types ->
  (getitem response "title" = Ok (JList []) ->
   get_database_schema response
   = Ok (JDict [("name", JStr "Untitled"); ("properties", JDict types)]))
  /\ (forall first rest text name,
        getitem response "title" = Ok (JList (first :: rest)) ->
        getitem first "text" = Ok text ->
        getitem text "content" = Ok name ->
        get_database_schema response
        = Ok (JDict [("name", name); ("properties", JDict types)]))
  /\ (forall e,
        getitem response "title" = Raise e ->
        get_database_schema response = Raise e).
Proof.
  intros Hp Hnd Hall.
  pose proof (schema_types_ok props types [] Hall Hnd) as Hs. simpl in Hs.
  unfold get_database_schema. rewrite Hp. cbn [bind]. repeat split.
  - intros Ht. rewrite Ht. cbn [bind truthy dict_items]. rewrite Hs.
    reflexivity.
  - intros first rest text name Ht Hx Hc.
    rewrite Ht. cbn [bind truthy getindex nth_error].
    rewrite Hx. cbn [bind]. rewrite Hc. cbn [bind dict_items]. rewrite Hs.
    reflexivity.
  - intros e Ht. rewrite Ht. reflexivity.
Qed.

Lemma get_database_schema_shape_witness :
  get_database_schema (sample_database [])
  = Ok (JDict [("name", JStr "Untitled");
               ("properties",
                JDict [("Item", JStr "title"); ("Notes", JStr "rich_text");
                       ("Count", JStr "number")])])
  /\ get_database_schema (sample_database ["Inventory"; " 2024"])
     = Ok (JDict [("name", JStr "Inventory");
                  ("properties",
                   JDict [("Item", JStr "title"); ("Notes", JStr "rich_text");
                          ("Count", JStr "number")])]).
Proof.
  assert (Hnd : NoDup (map fst sample_bag)).
  { simpl. repeat constructor; simpl; intuition discriminate. }
  assert (Hall : Forall2 (fun e e' =>
                            fst e = fst e' /\ getitem (snd e) "type" = Ok (snd e'))
                         sample_bag
                         [("Item", JStr "title"); ("Notes", JStr "rich_text");
                          ("Count", JStr "number")]).
  { repeat constructor. }
  split.
  - destruct (get_database_schema_shape (sample_database []) sample_bag _
                eq_refl Hnd Hall) as [H _].
    apply H. reflexivity.
  - destruct (get_database_schema_shape
                (sample_database ["Inventory"; " 2024"]) sample_bag _
                eq_refl Hnd Hall) as [_ [H _]].
    apply (H (fragment "Inventory") [fragment " 2024"]
             (JDict [("content", JStr "Inventory")]) (JStr "Inventory"));
      reflexivity.
Defined.

(** ** The flattener applied to its own output *)

Lemma flatten_property_bare (v : json) :
  (forall d, v <> JDict d) -> flatten_property v = Raise TypeError.
Proof.
  intros H. destruct v as [| | | | |d]; try reflexivity.
  exfalso. apply (H d). reflexivity.
Qed.

(** C5, as the code has it.  The flattener reads the kind of a value in the
    value itself, so it is not idempotent on its output as it stands: when a
    property bag flattens to [flat] and [flat] holds a value that is not an
    object -- a string, a number, a boolean, [None] or a list -- flattening
    [flat] raises.  What holds is idempotence after the values are given a
    kind: presenting every value [v] of [flat] as a property
    [{type: kind, kind: v}] of a pass-through kind (other than title and
    rich_text) and flattening that bag returns [flat] unchanged. *)
Theorem flatten_properties_idempotent (props flat : list (string * json))
  (kind : string) :
  flatten_properties props = Ok flat ->
  kind <> "title" -> kind <> "rich_text" -> kind <> "type" ->
  flatten_properties (retag kind flat) = Ok flat
  /\ forall name v,
       In (name, v) flat -> (forall d, v <> JDict d) ->
       exists e, flatten_properties flat = Raise e.
Proof.
  intros Hflat H1 H2 H3. split.
  - apply (flatten_retagged props flat kind); assumption.
  - intros name v Hin Hv. unfold flatten_properties.
    apply (flatten_into_raises flat [] name v TypeError Hin).
    apply flatten_property_bare. exact Hv.
Qed.

Lemma flatten_properties_idempotent_witness :
  flatten_properties sample_bag
  = Ok [("Item", JStr "Widget"); ("Notes", JStr ""); ("Count", JNum 3)]
  /\ flatten_properties
       (retag "other" [("Item", JStr "Widget"); ("Notes", JStr ""); ("Count", JNum 3)])
     = Ok [("Item", JStr "Widget"); ("Notes", JStr ""); ("Count", JNum 3)]
  /\ exists e,
       flatten_properties
         [("Item", JStr "Widget"); ("Notes", JStr ""); ("Count", JNum 3)]
       = Raise e.
Proof.
  split; [reflexivity|].
  destruct (flatten_properties_idempotent sample_bag
              [("Item", JStr "Widget"); ("Notes", JStr ""); ("Count", JNum 3)]
              "other" eq_refl) as [Hretag Hbare]; try discriminate.
  split; [exact Hretag|].
  apply (Hbare "Count" (JNum 3)).
  - right. right. left. reflexivity.
  - intros d. discriminate.
Defined.

(** The flattener on the output of the flattener: the bag [sample_bag]
    flattens to strings and a number, and flattening these raises
    [TypeError] instead of returning them. *)
Lemma flatten_properties_twice_raises :
  flatten_properties sample_bag
  = Ok [("Item", JStr "Widget"); ("Notes", JStr ""); ("Count", JNum 3)]
  /\ flatten_properties
       [("Item", JStr "Widget"); ("Notes", JStr ""); ("Count", JNum 3)]
     = Raise TypeError
  /\ flatten_properties
       [("Item", JStr "Widget"); ("Notes", JStr ""); ("Count", JNum 3)]
     <> Ok [("Item", JStr "Widget"); ("Notes", JStr ""); ("Count", JNum 3)].
Proof.
  split; [reflexivity|]. split; [reflexivity|].
  intros H. discriminate H.
Qed.
